(** * Utilities/build-script-helper.py: a shallow embedding

    The script drives [swift build] / [swift test] for sourcekit-lsp.  Its
    whole behaviour is the sequence of things it does to the outside world
    (child processes, lines on stdout and stderr, a directory removal) and
    the way it ends (normal return, [SystemExit], uncaught exception).

    The embedding is a state-and-error monad over
    - the single [argparse.Namespace] object that the script passes around
      and mutates in place, and
    - the trace of outside-world events performed so far.

    Everything the script cannot decide by itself (the platform name, the
    process environment, the working directory, what a child process does,
    what [json.loads] returns, which paths are symbolic links) is a field
    of a [World] record.  [os.path] is modelled as [posixpath]. *)

From Stdlib Require Import ZArith Ascii String.
From stdpp Require Import base option list strings gmap.

Set Warnings "-register-all".

Local Open Scope string_scope.
Local Open Scope list_scope.
Local Open Scope Z_scope.

(* ------------------------------------------------------------------------ *)
(** ** Python strings *)

Module PyStr.

(** [c in s] for a one-character string [c]. *)
Fixpoint contains (c : ascii) (s : string) : bool :=
  match s with
  | EmptyString => false
  | String d r => if Ascii.eqb c d then true else contains c r
  end.

(** [s.replace(c, t)] for a one-character string [c]. *)
Fixpoint replace (c : ascii) (t : string) (s : string) : string :=
  match s with
  | EmptyString => EmptyString
  | String d r =>
      if Ascii.eqb c d then t +:+ replace c t r else String d (replace c t r)
  end.

(** [sep.join(l)] *)
Fixpoint join (sep : string) (l : list string) : string :=
  match l with
  | [] => ""
  | [x] => x
  | x :: r => x +:+ sep +:+ join sep r
  end.

(** Whitespace, as removed by [str.strip()].  A string is the sequence of
    its code points, each below 256; the code points among them for which
    [str.isspace()] holds are 9 to 13, 28 to 31, 32, 133 and 160. *)
Definition is_space (c : ascii) : bool :=
  match c with
  | "009"%char | "010"%char | "011"%char | "012"%char | "013"%char
  | "028"%char | "029"%char | "030"%char | "031"%char
  | " "%char | "133"%char | "160"%char => true
  | _ => false
  end.

Fixpoint lstrip (s : string) : string :=
  match s with
  | EmptyString => EmptyString
  | String c r => if is_space c then lstrip r else s
  end.

Fixpoint rstrip (s : string) : string :=
  match s with
  | EmptyString => EmptyString
  | String c r =>
      match rstrip r with
      | EmptyString => if is_space c then EmptyString else String c EmptyString
      | r' => String c r'
      end
  end.

Definition strip (s : string) : string := rstrip (lstrip s).

(** [s.split(c)] for a one-character separator. *)
Fixpoint split (c : ascii) (s : string) : list string :=
  match s with
  | EmptyString => [EmptyString]
  | String d r =>
      if Ascii.eqb c d then EmptyString :: split c r
      else match split c r with
           | h :: t => String d h :: t
           | [] => [String d EmptyString]
           end
  end.

(** [s.startswith(p)]; also [re.match(p, s)] for a pattern [p] without
    regular-expression metacharacters. *)
Definition startswith (p s : string) : bool := String.prefix p s.

(** [s.endswith(c)] for a one-character string. *)
Fixpoint endswith_char (c : ascii) (s : string) : bool :=
  match s with
  | EmptyString => false
  | String d EmptyString => Ascii.eqb c d
  | String _ r => endswith_char c r
  end.

(** Truth value of a string. *)
Definition truthy (s : string) : bool :=
  match s with EmptyString => false | _ => true end.

End PyStr.

(* ------------------------------------------------------------------------ *)
(** ** [os.path] (posixpath) *)

Module PosixPath.

Definition isabs (p : string) : bool := PyStr.startswith "/" p.

(** Two-argument [os.path.join]. *)
Definition join2 (a b : string) : string :=
  if isabs b then b
  else if negb (PyStr.truthy a) || PyStr.endswith_char "/" a then a +:+ b
  else a +:+ "/" +:+ b.

(** [os.path.join(a, *ps)] *)
Definition join (a : string) (ps : list string) : string :=
  fold_left join2 ps a.

(** The component loop of [normpath].  [abs] says whether the path has
    leading slashes; [acc] is [new_comps], most recent component first. *)
Fixpoint norm_comps (abs : bool) (acc : list string) (comps : list string)
  : list string :=
  match comps with
  | [] => acc
  | comp :: rest =>
      if String.eqb comp "" || String.eqb comp "." then
        norm_comps abs acc rest
      else if negb (String.eqb comp "..")
              || (negb abs && match acc with [] => true | _ => false end)
              || match acc with
                 | last :: _ => String.eqb last ".."
                 | [] => false
                 end
      then norm_comps abs (comp :: acc) rest
      else norm_comps abs (tl acc) rest
  end.

(** [initial_slashes]: 0, 1, or 2 (exactly two leading slashes). *)
Definition initial_slashes (p : string) : string :=
  if PyStr.startswith "/" p then
    if PyStr.startswith "//" p && negb (PyStr.startswith "///" p)
    then "//" else "/"
  else "".

Definition normpath (p : string) : string :=
  if negb (PyStr.truthy p) then "."
  else
    let sl := initial_slashes p in
    let comps := rev (norm_comps (PyStr.truthy sl) [] (PyStr.split "/" p)) in
    let r := sl +:+ PyStr.join "/" comps in
    if PyStr.truthy r then r else ".".

(** [os.path.abspath], with the working directory made explicit. *)
Definition abspath (cwd p : string) : string :=
  normpath (if isabs p then p else join2 cwd p).

(** The path itself and each of its proper ancestors, as strings:
    for ["/a/b"] these are ["/a"] and ["/a/b"]. *)
Fixpoint ancestors_from (pre : string) (comps : list string) : list string :=
  match comps with
  | [] => []
  | c :: rest =>
      let here := pre +:+ "/" +:+ c in
      here :: ancestors_from here rest
  end.

Definition ancestors (p : string) : list string :=
  ancestors_from "" (filter (λ c, c ≠ "") (PyStr.split "/" p)).

End PosixPath.

(* ------------------------------------------------------------------------ *)
(** ** Values *)

(** A value that is a [str] or [None]: an optional command-line argument,
    and therefore also an element of a command list built from one. *)
Inductive arg :=
| Str (s : string)
| NoneArg.

Definition strs (l : list string) : list arg := map Str l.

(** All elements, if every one of them is a string. *)
Fixpoint all_str (l : list arg) : option (list string) :=
  match l with
  | [] => Some []
  | Str s :: r => match all_str r with Some r' => Some (s :: r') | None => None end
  | NoneArg :: _ => None
  end.

Definition arg_of (o : option string) : arg :=
  match o with Some s => Str s | None => NoneArg end.

(** What [json.loads] returns. Numbers are kept as their literal. *)
Inductive json :=
| JNull
| JBool (b : bool)
| JNum (lit : string)
| JStr (s : string)
| JArr (l : list json)
| JObj (m : list (string * json)).

(** Exceptions that can escape the library calls the script makes. *)
Inductive exn :=
| CalledProcessError (returncode : Z) (cmd : list string)
| OSError
| JSONDecodeError
| KeyError (key : string)
| TypeError
| UnicodeDecodeError.

Fixpoint assoc (k : string) (m : list (string * json)) : option json :=
  match m with
  | [] => None
  | (k', v) :: r => if String.eqb k k' then Some v else assoc k r
  end.

(** [v[k]] for a string key [k]. *)
Definition subscript (v : json) (k : string) : exn + json :=
  match v with
  | JObj m => match assoc k m with Some x => inr x | None => inl (KeyError k) end
  | _ => inl TypeError
  end.

(** [v == s] for a string [s]. *)
Definition json_eq_str (v : json) (s : string) : bool :=
  match v with JStr t => String.eqb t s | _ => false end.

(** Truth value of an optional string / optional list. *)
Definition truthy_str (o : option string) : bool :=
  match o with Some s => PyStr.truthy s | None => false end.

Definition truthy_list {A} (o : option (list A)) : bool :=
  match o with Some (_ :: _) => true | _ => false end.

(* ------------------------------------------------------------------------ *)
(** ** The configuration record: [argparse.Namespace] *)

Record Namespace := mkNamespace {
  action : string;
  package_path : string;
  toolchain : string;
  ninja_bin : option string;
  build_path : string;
  configuration : string;
  no_local_deps : bool;
  sanitize : option (list string);
  sanitize_all : bool;
  no_clean : bool;
  verbose : bool;
  cross_compile_host : option string;
  cross_compile_config : option string;
  skip_long_tests : bool;
  install_prefixes : option (list string);
  (** attribute added by [get_build_target]; absent until then *)
  target_info : option json;
}.

Definition set_package_path (v : string) (a : Namespace) : Namespace :=
  mkNamespace (action a) v (toolchain a) (ninja_bin a) (build_path a)
    (configuration a) (no_local_deps a) (sanitize a) (sanitize_all a)
    (no_clean a) (verbose a) (cross_compile_host a) (cross_compile_config a)
    (skip_long_tests a) (install_prefixes a) (target_info a).

Definition set_toolchain (v : string) (a : Namespace) : Namespace :=
  mkNamespace (action a) (package_path a) v (ninja_bin a) (build_path a)
    (configuration a) (no_local_deps a) (sanitize a) (sanitize_all a)
    (no_clean a) (verbose a) (cross_compile_host a) (cross_compile_config a)
    (skip_long_tests a) (install_prefixes a) (target_info a).

Definition set_build_path (v : string) (a : Namespace) : Namespace :=
  mkNamespace (action a) (package_path a) (toolchain a) (ninja_bin a) v
    (configuration a) (no_local_deps a) (sanitize a) (sanitize_all a)
    (no_clean a) (verbose a) (cross_compile_host a) (cross_compile_config a)
    (skip_long_tests a) (install_prefixes a) (target_info a).

Definition set_sanitize (v : option (list string)) (a : Namespace) : Namespace :=
  mkNamespace (action a) (package_path a) (toolchain a) (ninja_bin a)
    (build_path a) (configuration a) (no_local_deps a) v (sanitize_all a)
    (no_clean a) (verbose a) (cross_compile_host a) (cross_compile_config a)
    (skip_long_tests a) (install_prefixes a) (target_info a).

Definition set_install_prefixes (v : option (list string)) (a : Namespace)
  : Namespace :=
  mkNamespace (action a) (package_path a) (toolchain a) (ninja_bin a)
    (build_path a) (configuration a) (no_local_deps a) (sanitize a)
    (sanitize_all a) (no_clean a) (verbose a) (cross_compile_host a)
    (cross_compile_config a) (skip_long_tests a) v (target_info a).

Definition set_target_info (v : option json) (a : Namespace) : Namespace :=
  mkNamespace (action a) (package_path a) (toolchain a) (ninja_bin a)
    (build_path a) (configuration a) (no_local_deps a) (sanitize a)
    (sanitize_all a) (no_clean a) (verbose a) (cross_compile_host a)
    (cross_compile_config a) (skip_long_tests a) (install_prefixes a) v.

(* ------------------------------------------------------------------------ *)
(** ** The outside world *)

(** What the script does to the outside world, in order. *)
Inductive event :=
| Stdout (line : string)
| Stderr (line : string)
(** a child process is started: [subprocess.check_call] / [check_output] *)
| Spawn (cmd : list string) (env : option (gmap string string))
(** [shutil.rmtree(path, ignore_errors=True)] *)
| Rmtree (path : string).

(** How a started child ends: it exits with a status and some standard
    output; or it exits with a status and what it wrote cannot be decoded
    as text (which matters only where the output is captured); or it
    could not be executed at all ([OSError]). *)
Inductive proc_result :=
| Exited (returncode : Z) (output : string)
| Undecodable (returncode : Z)
| NotExecuted.

Record World := mkWorld {
  (** [platform.system()] *)
  platform_system : string;
  (** [os.environ] *)
  environ : gmap string string;
  (** [os.getcwd()] *)
  getcwd : string;
  (** outcome of the child started by the last event of the given trace *)
  run_process : list event → proc_result;
  (** [json.loads]; [None] when it raises *)
  json_loads : string → option json;
  (** [str(e)] *)
  str_exn : exn → string;
  (** whether the path names a symbolic link *)
  is_symlink : string → bool;
}.

(* ------------------------------------------------------------------------ *)
(** ** The monad *)

Record State := mkState {
  st_args : Namespace;
  st_trace : list event;
}.

(** How a computation ends: it returns, [SystemExit(code)] is raised, or
    another exception is raised. *)
Inductive result (A : Type) :=
| Ok (a : A)
| Exit (code : Z)
| Raise (e : exn).
Arguments Ok {A} a.
Arguments Exit {A} code.
Arguments Raise {A} e.

Definition M (A : Type) : Type := State → result A * State.

Definition ret {A} (a : A) : M A := λ st, (Ok a, st).

Definition bind {A B} (m : M A) (k : A → M B) : M B :=
  λ st,
    match m st with
    | (Ok a, st') => k a st'
    | (Exit c, st') => (Exit c, st')
    | (Raise e, st') => (Raise e, st')
    end.

Notation "'let*' x ':=' c 'in' k" := (bind c (λ x, k))
  (at level 10, x name, c at level 100, k at level 200).
Notation "c ;;; k" := (bind c (λ _, k))
  (at level 100, k at level 200, right associativity).

Definition raise {A} (e : exn) : M A := λ st, (Raise e, st).
Definition sys_exit {A} (code : Z) : M A := λ st, (Exit code, st).

(** [try: m  except Exception as e: h e].  [SystemExit] is not an
    [Exception] and passes through. *)
Definition try_except {A} (m : M A) (h : exn → M A) : M A :=
  λ st,
    match m st with
    | (Raise e, st') => h e st'
    | other => other
    end.

Definition get_args : M Namespace := λ st, (Ok (st_args st), st).

Definition modify_args (f : Namespace → Namespace) : M unit :=
  λ st, (Ok tt, mkState (f (st_args st)) (st_trace st)).

Definition emit (e : event) : M unit :=
  λ st, (Ok tt, mkState (st_args st) (st_trace st ++ [e])).

Definition lift_exn {A} (r : exn + A) : M A :=
  match r with inl e => raise e | inr a => ret a end.

(** [for x in l: body x] *)
Fixpoint for_each {A} (l : list A) (body : A → M unit) : M unit :=
  match l with
  | [] => ret tt
  | x :: r => body x ;;; for_each r body
  end.

(** Starting a child.  A command list holding [None] is rejected with
    [TypeError] before anything is started. *)
Definition popen (w : World) (cmd : list arg) (env : option (gmap string string))
  : M (Z * option string * list string) :=
  match all_str cmd with
  | None => raise TypeError
  | Some c =>
      λ st,
        let tr := st_trace st ++ [Spawn c env] in
        let st' := mkState (st_args st) tr in
        match run_process w tr with
        | Exited rc out => (Ok (rc, Some out, c), st')
        | Undecodable rc => (Ok (rc, None, c), st')
        | NotExecuted => (Raise OSError, st')
        end
  end.

Definition subprocess_check_call (w : World) (cmd : list arg)
    (env : option (gmap string string)) : M unit :=
  let* r := popen w cmd env in
  let '(rc, _, c) := r in
  if rc =? 0 then ret tt else raise (CalledProcessError rc c).

Definition subprocess_check_output (w : World) (cmd : list arg)
    (env : option (gmap string string)) : M string :=
  let* r := popen w cmd env in
  let '(rc, out, c) := r in
  match out with
  | None => raise UnicodeDecodeError
  | Some text => if rc =? 0 then ret text else raise (CalledProcessError rc c)
  end.

(* ------------------------------------------------------------------------ *)
(** ** General utilities *)

Definition print (line : string) : M unit := emit (Stdout line).

Definition fatal_error {A} (message : string) : M A :=
  emit (Stderr message) ;;; sys_exit 1.

(** The double-quote character, and a backslash followed by it. *)
Definition dquote : ascii := "034"%char.
Definition escaped_dquote : string :=
  String "092"%char (String dquote EmptyString).

(** [escapeCmdArg]; [c in arg] raises [TypeError] when [arg] is [None]. *)
Definition escapeCmdArg (a : arg) : exn + string :=
  match a with
  | NoneArg => inl TypeError
  | Str s =>
      if PyStr.contains dquote s || PyStr.contains " "%char s
      then inr (String dquote (PyStr.replace dquote escaped_dquote s
                                 +:+ String dquote EmptyString))
      else inr s
  end.

(** [[escapeCmdArg(arg) for arg in cmd]] *)
Fixpoint escape_all (cmd : list arg) : exn + list string :=
  match cmd with
  | [] => inr []
  | a :: r =>
      match escapeCmdArg a with
      | inl e => inl e
      | inr s => match escape_all r with
                 | inl e => inl e
                 | inr l => inr (s :: l)
                 end
      end
  end.

Definition print_cmd (cmd : list arg) : M unit :=
  let* l := lift_exn (escape_all cmd) in
  print (PyStr.join " " l).

Definition check_call (w : World) (cmd : list arg)
    (env : option (gmap string string)) (verbose : bool) : M unit :=
  (if verbose then print_cmd cmd else ret tt) ;;;
  subprocess_check_call w cmd env.

(* ------------------------------------------------------------------------ *)
(** ** SwiftPM wrappers *)

Definition swiftpm_bin_path (w : World) (swift_exec : string)
    (swiftpm_args : list arg) (env : option (gmap string string))
    (verbose : bool) : M string :=
  let cmd := strs [swift_exec; "build"; "--show-bin-path"] ++ swiftpm_args in
  (if verbose then print_cmd cmd else ret tt) ;;;
  let* out := subprocess_check_output w cmd env in
  ret (PyStr.strip out).

Definition is_darwin (w : World) : bool := String.eqb (platform_system w) "Darwin".
Definition is_linux (w : World) : bool := String.eqb (platform_system w) "Linux".

(** The command of the target-introspection child. *)
Definition target_info_cmd (swift_exec : string) : list string :=
  [swift_exec; "-print-target-info"].

Definition get_build_target (w : World) (swift_exec : string) : M json :=
  try_except
    (let command := strs (target_info_cmd swift_exec) in
     let* out := subprocess_check_output w command None in
     let target_info_json := PyStr.strip out in
     let* info :=
       match json_loads w target_info_json with
       | Some j => ret j
       | None => raise JSONDecodeError
       end in
     modify_args (set_target_info (Some info)) ;;;
     if is_darwin w then
       let* t := lift_exn (subscript info "target") in
       lift_exn (subscript t "unversionedTriple")
     else
       let* t := lift_exn (subscript info "target") in
       lift_exn (subscript t "triple"))
    (λ e,
       (* Temporary fallback for Darwin. *)
       if is_darwin w then ret (JStr "x86_64-apple-macosx")
       else fatal_error (str_exn w e)).

(* ------------------------------------------------------------------------ *)
(** ** Build SourceKit-LSP *)

(** [re.match('android-', host)] *)
Definition match_android (host : string) : bool :=
  PyStr.startswith "android-" host.

(** [args.cross_compile_host and re.match('android-', args.cross_compile_host)] *)
Definition cross_android (a : Namespace) : bool :=
  match cross_compile_host a with
  | Some h => PyStr.truthy h && match_android h
  | None => false
  end.

Definition get_swiftpm_options (w : World) (swift_exec : string)
  : M (list arg) :=
  let* args := get_args in
  let swiftpm_args :=
    strs ["--package-path"; package_path args;
          "--build-path"; build_path args;
          "--configuration"; configuration args] in
  let swiftpm_args :=
    if verbose args then swiftpm_args ++ strs ["--verbose"] else swiftpm_args in
  let swiftpm_args :=
    if truthy_list (sanitize args) then
      swiftpm_args
        ++ strs (map (λ san, "--sanitize=" +:+ san) (default [] (sanitize args)))
    else swiftpm_args in
  let swiftpm_args :=
    if is_darwin w then
      swiftpm_args
        ++ strs ["-Xlinker"; "-rpath"; "-Xlinker";
                 "@executable_path/../lib/swift/macosx"]
    else
      swiftpm_args
        ++ strs ["-Xcxx"; "-I"; "-Xcxx";
                 PosixPath.join (toolchain args) ["lib"; "swift"];
                 "-Xcxx"; "-I"; "-Xcxx";
                 PosixPath.join (toolchain args) ["lib"; "swift"; "Block"]] in
  let swiftpm_args :=
    if bool_decide (is_Some (environ w !! "ANDROID_DATA")) || cross_android args
    then
      swiftpm_args
        ++ strs ["-Xlinker"; "-rpath"; "-Xlinker"; "$ORIGIN/../lib/swift/android";
                 "-Xswiftc"; "-Xcc"; "-Xswiftc"; "-U_GNU_SOURCE"]
    else if is_linux w then
      swiftpm_args
        ++ strs ["-Xlinker"; "-rpath"; "-Xlinker"; "$ORIGIN/../lib/swift/linux"]
    else swiftpm_args in
  let* build_target := get_build_target w swift_exec in
  let* args := get_args in
  match cross_compile_host args with
  | Some host =>
      if PyStr.truthy host then
        if json_eq_str build_target "x86_64-apple-macosx"
           && String.eqb host "macosx-arm64"
        then ret (swiftpm_args ++ strs ["--arch"; "x86_64"; "--arch"; "arm64"])
        else if match_android host then
          print ("Cross-compiling for " +:+ host) ;;;
          ret (swiftpm_args
                 ++ [Str "--destination"; arg_of (cross_compile_config args)])
        else fatal_error ("cannot cross-compile for " +:+ host)
      else ret swiftpm_args
  | None => ret swiftpm_args
  end.

(** [args.sanitize and name in args.sanitize] *)
Definition sanitize_has (name : string) (a : Namespace) : bool :=
  truthy_list (sanitize a) && bool_decide (name ∈ default [] (sanitize a)).

Definition get_swiftpm_environment_variables (w : World) (swift_exec : string)
  : M (gmap string string) :=
  let* args := get_args in
  let env := environ w in
  let env := <["SOURCEKIT_TOOLCHAIN_PATH" := toolchain args]> env in
  let env := <["INDEXSTOREDB_TOOLCHAIN_BIN_PATH" := toolchain args]> env in
  let env :=
    if negb (no_local_deps args) then <["SWIFTCI_USE_LOCAL_DEPS" := "1"]> env
    else env in
  let env :=
    match ninja_bin args with
    | Some n => if PyStr.truthy n then <["NINJA_BIN" := n]> env else env
    | None => env
    end in
  let env :=
    if sanitize_has "address" args
    then <["ASAN_OPTIONS" := "detect_leaks=false"]> env else env in
  let env :=
    if sanitize_has "undefined" args then
      let supp :=
        PosixPath.join (package_path args)
          ["Utilities"; "ubsan_supressions.supp"] in
      <["UBSAN_OPTIONS" := "halt_on_error=true,suppressions=" +:+ supp]> env
    else env in
  let env :=
    if sanitize_has "thread" args
    then <["TSAN_OPTIONS" := "halt_on_error=true"]> env else env in
  let env :=
    if String.eqb (action args) "test" && negb (skip_long_tests args)
    then <["SOURCEKIT_LSP_ENABLE_LONG_TESTS" := "1"]> env else env in
  let env := <["SWIFT_EXEC" := swift_exec +:+ "c"]> env in
  ret env.

Definition build_single_product (w : World) (product : string)
    (swift_exec : string) : M unit :=
  let* swiftpm_args := get_swiftpm_options w swift_exec in
  let* env := get_swiftpm_environment_variables w swift_exec in
  let cmd := strs [swift_exec; "build"; "--product"; product] ++ swiftpm_args in
  let* args := get_args in
  check_call w cmd (Some env) (verbose args).

Definition run_tests (w : World) (swift_exec : string) : M unit :=
  let* swiftpm_args := get_swiftpm_options w swift_exec in
  let* env := get_swiftpm_environment_variables w swift_exec in
  let* bin_path := swiftpm_bin_path w swift_exec swiftpm_args (Some env) false in
  let tests := PosixPath.join bin_path ["sk-tests"] in
  print ("Cleaning " +:+ tests) ;;;
  emit (Rmtree tests) ;;;
  let cmd :=
    strs [swift_exec; "test"; "--parallel"; "--disable-testable-imports";
          "--test-product"; "SourceKitLSPPackageTests"] ++ swiftpm_args in
  let* args := get_args in
  check_call w cmd (Some env) (verbose args).

Definition install_binary (w : World) (exe source_dir install_dir : string)
    (verbose : bool) : M unit :=
  let cmd := strs ["rsync"; "-a"; PosixPath.join source_dir [exe]; install_dir] in
  check_call w cmd None verbose.

Definition install (w : World) (swift_exec : string) : M unit :=
  let* swiftpm_args := get_swiftpm_options w swift_exec in
  let* env := get_swiftpm_environment_variables w swift_exec in
  let* bin_path := swiftpm_bin_path w swift_exec swiftpm_args (Some env) false in
  let swiftpm_args := swiftpm_args ++ strs ["-Xswiftc"; "-no-toolchain-stdlib-rpath"] in
  check_call w (strs [swift_exec; "build"] ++ swiftpm_args) (Some env) false ;;;
  let* args := get_args in
  (if negb (truthy_list (install_prefixes args))
   then modify_args (set_install_prefixes (Some [toolchain args]))
   else ret tt) ;;;
  let* args := get_args in
  for_each (default [] (install_prefixes args))
    (λ prefix,
       install_binary w "sourcekit-lsp" bin_path
         (PosixPath.join prefix ["bin"]) (verbose args)).

(** The products of the [build] action, in build order. *)
Definition products : list string :=
  ["SourceKitLSPPackageTests"; "_SourceKitLSP"; "sourcekit-lsp"].

Definition handle_invocation (w : World) (swift_exec : string) : M unit :=
  let* args := get_args in
  if String.eqb (action args) "build" then
    for_each products (λ product, build_single_product w product swift_exec)
  else if String.eqb (action args) "test" then
    run_tests w swift_exec
  else if String.eqb (action args) "install" then
    install w swift_exec
  else
    fatal_error ("unknown action '" +:+ action args +:+ "'").

(* ------------------------------------------------------------------------ *)
(** ** Argument parsing

    [argparse] itself is outside the script: the state a run starts from
    holds the [Namespace] that [parser.parse_args(sys.argv[1:])] returned.
    [parse_args] below is what the script does with it. *)

Definition parse_args (w : World) : M unit :=
  let* args := get_args in
  (if truthy_list (sanitize args) && sanitize_all args
   then fatal_error "cannot combine --sanitize with --sanitize-all"
   else ret tt) ;;;
  (* Canonicalize paths *)
  let* args := get_args in
  modify_args (set_package_path (PosixPath.abspath (getcwd w) (package_path args))) ;;;
  let* args := get_args in
  modify_args (set_build_path (PosixPath.abspath (getcwd w) (build_path args))) ;;;
  let* args := get_args in
  modify_args (set_toolchain (PosixPath.abspath (getcwd w) (toolchain args))).

Definition main (w : World) : M unit :=
  parse_args w ;;;
  let* args := get_args in
  let swift_exec :=
    if PyStr.truthy (toolchain args)
    then PosixPath.join (toolchain args) ["bin"; "swift"]
    else "swift" in
  handle_invocation w swift_exec ;;;
  let* args := get_args in
  if sanitize_all args then
    let base := build_path args in
    print ("=== " +:+ action args +:+ " sourcekit-lsp with asan ===") ;;;
    modify_args (set_sanitize (Some ["address"])) ;;;
    modify_args (set_build_path (PosixPath.join base ["test-asan"])) ;;;
    handle_invocation w swift_exec ;;;
    let* args := get_args in
    print ("=== " +:+ action args +:+ " sourcekit-lsp with tsan ===") ;;;
    modify_args (set_sanitize (Some ["thread"])) ;;;
    modify_args (set_build_path (PosixPath.join base ["test-tsan"])) ;;;
    handle_invocation w swift_exec ;;;
    (* Linux ubsan disabled: https://bugs.swift.org/browse/SR-12550 *)
    if negb (is_linux w) then
      let* args := get_args in
      print ("=== " +:+ action args +:+ " sourcekit-lsp with ubsan ===") ;;;
      modify_args (set_sanitize (Some ["undefined"])) ;;;
      modify_args (set_build_path (PosixPath.join base ["test-ubsan"])) ;;;
      handle_invocation w swift_exec
    else ret tt
  else ret tt.

(** The state a run starts from. *)
Definition init (ns : Namespace) : State := mkState ns [].

(** The exit status of the process: 0 after a normal return, the code of
    [SystemExit], and 1 when an exception reaches the top level. *)
Definition exit_status {A} (r : result A) : Z :=
  match r with
  | Ok _ => 0
  | Exit code => code
  | Raise _ => 1
  end.

(* ------------------------------------------------------------------------ *)
(** ** Sample worlds and command lines *)

Module Sample.

Definition info : json :=
  JObj [("target",
         JObj [("triple", JStr "x86_64-unknown-linux-gnu");
               ("unversionedTriple", JStr "x86_64-apple-macosx")])].

(** Every child succeeds and prints a path. *)
Definition all_succeed (_ : list event) : proc_result :=
  Exited 0 "/work/.build/debug".

Definition world (system : string) (run : list event → proc_result) : World :=
  mkWorld system ∅ "/work" run (λ _, Some info) (λ _, "error") (λ _, false).

Definition linux : World := world "Linux" all_succeed.
Definition darwin : World := world "Darwin" all_succeed.

(** [ACTION --toolchain /tc], everything else at its default. *)
Definition ns (act : string) : Namespace :=
  mkNamespace act "." "/tc" None ".build" "debug" false None false false
    false None None false None None.

(** [ACTION --toolchain /tc --sanitize-all] *)
Definition ns_all (act : string) : Namespace :=
  mkNamespace act "." "/tc" None ".build" "debug" false None true false
    false None None false None None.

(** [ACTION --toolchain /tc --sanitize address --sanitize-all] *)
Definition ns_both (act : string) : Namespace :=
  mkNamespace act "." "/tc" None ".build" "debug" false (Some ["address"])
    true false false None None false None None.

(** [ACTION --toolchain /tc --cross-compile-host HOST], with or without
    [--cross-compile-config CONFIG]. *)
Definition ns_cross (act host : string) (config : option string) : Namespace :=
  mkNamespace act "." "/tc" None ".build" "debug" false None false false
    false (Some host) config false None None.

(** The command lists of the children started in a trace. *)
Definition cmds (tr : list event) : list (list string) :=
  omap (λ e, match e with Spawn c _ => Some c | _ => None end) tr.

End Sample.

(* ------------------------------------------------------------------------ *)
(** ** Notions used in the statements *)

(** [get_build_target] assigns [target_info] and [install] assigns
    [install_prefixes]; nothing below [handle_invocation] assigns any other
    attribute.  [erase] forgets exactly these two. *)
Definition erase (a : Namespace) : Namespace :=
  set_install_prefixes None (set_target_info None a).

(** A computation that leaves every other attribute of the record alone. *)
Definition frames {A} (m : M A) : Prop :=
  ∀ st, erase (st_args (m st).2) = erase (st_args st).

Definition is_spawn (e : event) : bool :=
  match e with Spawn _ _ => true | _ => false end.

(** The product that a child builds, when the child is
    [swift build --product P ...]. *)
Definition product_of (e : event) : option string :=
  match e with
  | Spawn (_ :: mode :: flag :: p :: _) _ =>
      if String.eqb mode "build" && String.eqb flag "--product"
      then Some p else None
  | _ => None
  end.

(** Whether the child started by the last event of [tr] exits with
    status 0. *)
Definition child_ok (w : World) (tr : list event) : bool :=
  match run_process w tr with
  | Exited 0 _ | Undecodable 0 => true
  | _ => false
  end.

(** Every product build among the events [d], performed after the
    history [h], exits with status 0. *)
Fixpoint builds_ok (w : World) (h d : list event) : bool :=
  match d with
  | [] => true
  | e :: d' =>
      match product_of e with
      | Some _ => child_ok w (h ++ [e])
      | None => true
      end
      && builds_ok w (h ++ [e]) d'
  end.

(** A Linux world in which the build of [_SourceKitLSP] exits with
    status 1 and every other child succeeds. *)
Definition second_product_fails (tr : list event) : proc_result :=
  match last tr with
  | Some e =>
      match product_of e with
      | Some p =>
          if String.eqb p "_SourceKitLSP" then Exited 1 ""
          else Exited 0 "/work/.build/debug"
      | None => Exited 0 "/work/.build/debug"
      end
  | None => NotExecuted
  end.

(** The record that [parse_args] leaves behind when it returns. *)
Definition parsed (w : World) (ns : Namespace) : Namespace :=
  set_toolchain (PosixPath.abspath (getcwd w) (toolchain ns))
    (set_build_path (PosixPath.abspath (getcwd w) (build_path ns))
       (set_package_path (PosixPath.abspath (getcwd w) (package_path ns)) ns)).

(** [swift_exec], as [main] computes it from the record. *)
Definition swift_exec_of (a : Namespace) : string :=
  if PyStr.truthy (toolchain a)
  then PosixPath.join (toolchain a) ["bin"; "swift"]
  else "swift".

(** Where a sanitizer pass of [main] starts from: the banner is printed,
    then [sanitize] and [build_path] of the record are assigned. *)
Definition pass_state (san dir name : string) (before : State) : State :=
  mkState
    (set_build_path dir (set_sanitize (Some [san]) (st_args before)))
    (st_trace before
       ++ [Stdout ("=== " +:+ action (st_args before)
                     +:+ " sourcekit-lsp with " +:+ name +:+ " ===")]).

(** A sanitizer pass that runs the action to its end. *)
Definition sanitizer_pass (w : World) (swift_exec san dir name : string)
    (before after : State) : Prop :=
  handle_invocation w swift_exec (pass_state san dir name before)
  = (Ok tt, after).

(** A computation that only ever adds events at the end of the trace. *)
Definition appends {A} (m : M A) : Prop :=
  ∀ st, ∃ d, st_trace (m st).2 = st_trace st ++ d.

(** A Linux world in which [/tc] is a symbolic link. *)
Definition linked_world : World :=
  mkWorld "Linux" ∅ "/work" Sample.all_succeed (λ _, Some Sample.info)
    (λ _, "error") (λ p, String.eqb p "/tc").

(** No symbolic link on the way to [p]. *)
Definition symlink_free (w : World) (p : string) : Prop :=
  Forall (λ q, is_symlink w q = false) (PosixPath.ancestors p).

(** Canonical: absolute, and with every symbolic link resolved. *)
Definition canonical (w : World) (p : string) : Prop :=
  PosixPath.isabs p = true ∧ symlink_free w p.

(** A path component: it holds no slash and is not empty, [.] or [..]. *)
Definition proper_component (c : string) : Prop :=
  PyStr.contains "/" c = false ∧ c ≠ "" ∧ c ≠ "." ∧ c ≠ "..".

(** Absolute and normalised as a string: one or two leading slashes, then
    proper components separated by single slashes. *)
Definition lexically_normal (p : string) : Prop :=
  ∃ sl comps,
    (sl = "/" ∨ sl = "//")
    ∧ p = sl +:+ PyStr.join "/" comps
    ∧ Forall proper_component comps.

(** For each product build in a trace: the product, and the 8th and 11th
    words of the command (with the sample command lines: the build path and
    the first flag after the configuration). *)
Definition build_lines (tr : list event)
  : list (string * option string * option string) :=
  omap (λ e,
          match product_of e, e with
          | Some p, Spawn c _ => Some (p, c !! 7%nat, c !! 10%nat)
          | _, _ => None
          end) tr.

(** The command lists of the children started in a trace, in order. *)
Definition spawned (tr : list event) : list (list string) :=
  omap (λ e, match e with Spawn c _ => Some c | _ => None end) tr.

(** The variables that [get_swiftpm_environment_variables] may assign. *)
Definition assigned_variables : list string :=
  ["SOURCEKIT_TOOLCHAIN_PATH"; "INDEXSTOREDB_TOOLCHAIN_BIN_PATH";
   "SWIFTCI_USE_LOCAL_DEPS"; "NINJA_BIN"; "ASAN_OPTIONS"; "UBSAN_OPTIONS";
   "TSAN_OPTIONS"; "SOURCEKIT_LSP_ENABLE_LONG_TESTS"; "SWIFT_EXEC"].

(** A line on stdout or stderr. *)
Definition is_print (e : event) : bool :=
  match e with Stdout _ | Stderr _ => true | _ => false end.

(** A Linux world in which every child whose command asks for the
    address sanitizer exits with status 1 and every other child succeeds. *)
Definition address_pass_fails (tr : list event) : proc_result :=
  match last tr with
  | Some (Spawn c _) =>
      if bool_decide ("--sanitize=address" ∈ c) then Exited 1 ""
      else Exited 0 "/work/.build/debug"
  | _ => NotExecuted
  end.

(** [install --toolchain /tc --prefix P1 --prefix P2 ...] *)
Definition ns_install (prefixes : option (list string)) : Namespace :=
  mkNamespace "install" "." "/tc" None ".build" "debug" false None false false
    false None None false prefixes None.

(** The command that copies the executable from [bin_path] into the
    [bin] directory of [prefix]. *)
Definition rsync_cmd (bin_path prefix : string) : list string :=
  ["rsync"; "-a"; PosixPath.join bin_path ["sourcekit-lsp"];
   PosixPath.join prefix ["bin"]].

(** The install prefixes that [install] copies into. *)
Definition effective_prefixes (a : Namespace) : list string :=
  if truthy_list (install_prefixes a) then default [] (install_prefixes a)
  else [toolchain a].

(** A child is well directed when it is the introspection, started with
    the environment of the process, or is started with an environment
    that points at the toolchain [tc] and names the compiler next to
    [swift_exec].  Events other than children are not constrained. *)
Definition well_directed (swift_exec tc : string) (e : event) : Prop :=
  match e with
  | Spawn c (Some env) =>
      env !! "SOURCEKIT_TOOLCHAIN_PATH" = Some tc
      ∧ env !! "INDEXSTOREDB_TOOLCHAIN_BIN_PATH" = Some tc
      ∧ env !! "SWIFT_EXEC" = Some (swift_exec +:+ "c")
  | Spawn c None => c = target_info_cmd swift_exec
  | _ => True
  end.

(** A computation all of whose events satisfy [P]. *)
Definition emits (P : event → Prop) {A} (m : M A) : Prop :=
  ∀ st, ∃ d, st_trace (m st).2 = st_trace st ++ d ∧ Forall P d.


(** What the [try] block of [get_build_target] raises, when it raises,
    after the history [tr]: [OSError] when the child cannot be executed,
    [UnicodeDecodeError] when its output cannot be decoded,
    [CalledProcessError] when its status is not 0, [JSONDecodeError] when
    its output is not JSON, and the exception of the failing subscript
    otherwise. *)
Definition resolver_raises (w : World) (swift_exec : string)
    (tr : list event) (e : exn) : Prop :=
  match run_process w (tr ++ [Spawn (target_info_cmd swift_exec) None]) with
  | NotExecuted => e = OSError
  | Undecodable _ => e = UnicodeDecodeError
  | Exited rc out =>
      if rc =? 0 then
        match json_loads w (PyStr.strip out) with
        | None => e = JSONDecodeError
        | Some info =>
            match subscript info "target" with
            | inl e' => e = e'
            | inr target =>
                subscript target
                  (if is_darwin w then "unversionedTriple" else "triple")
                = inl e
            end
        end
      else e = CalledProcessError rc (target_info_cmd swift_exec)
  end.

(** Option assembly for the record [a] after the history [tr] performs
    the events [d] and does not return a list of strings: it ends in an
    exit or an exception, or the list it returns holds [None]. *)
Definition assembly_fails (w : World) (swift_exec : string) (a : Namespace)
    (tr d : list event) : Prop :=
  let prep := get_swiftpm_options w swift_exec (mkState a tr) in
  st_trace prep.2 = tr ++ d
  ∧ match prep.1 with
    | Ok opts => all_str opts = None
    | _ => True
    end.

(* ------------------------------------------------------------------------ *)
(** ** What the script leaves alone in the record *)

Create HintDb frames.

Lemma frames_ret {A} (a : A) : frames (ret a).
Proof. intros st; reflexivity. Qed.

Lemma frames_raise {A} (e : exn) : frames (@raise A e).
Proof. intros st; reflexivity. Qed.

Lemma frames_sys_exit {A} (c : Z) : frames (@sys_exit A c).
Proof. intros st; reflexivity. Qed.

Lemma frames_get_args : frames get_args.
Proof. intros st; reflexivity. Qed.

Lemma frames_emit (e : event) : frames (emit e).
Proof. intros st; reflexivity. Qed.

Lemma frames_set_target_info (v : option json) :
  frames (modify_args (set_target_info v)).
Proof. intros st; reflexivity. Qed.

Lemma frames_set_install_prefixes (v : option (list string)) :
  frames (modify_args (set_install_prefixes v)).
Proof. intros st; reflexivity. Qed.

Lemma frames_bind {A B} (m : M A) (k : A → M B) :
  frames m → (∀ a, frames (k a)) → frames (bind m k).
Proof.
  intros Hm Hk st. unfold bind.
  specialize (Hm st). destruct (m st) as [[a | c | e] st1]; simpl in *; trivial.
  rewrite <- Hm. apply Hk.
Qed.

Lemma frames_try_except {A} (m : M A) (h : exn → M A) :
  frames m → (∀ e, frames (h e)) → frames (try_except m h).
Proof.
  intros Hm Hh st. unfold try_except.
  specialize (Hm st). destruct (m st) as [[a | c | e] st1]; simpl in *; trivial.
  rewrite <- Hm. apply Hh.
Qed.

Lemma frames_if {A} (b : bool) (m1 m2 : M A) :
  frames m1 → frames m2 → frames (if b then m1 else m2).
Proof. destruct b; trivial. Qed.

Lemma frames_lift_exn {A} (r : exn + A) : frames (lift_exn r).
Proof. destruct r; intros st; reflexivity. Qed.

Lemma frames_for_each {A} (l : list A) (body : A → M unit) :
  (∀ x, frames (body x)) → frames (for_each l body).
Proof.
  intros Hb. induction l as [| x l IH]; simpl.
  - apply frames_ret.
  - apply frames_bind; auto.
Qed.

Lemma frames_popen w cmd env : frames (popen w cmd env).
Proof.
  unfold popen. destruct (all_str cmd); [| apply frames_raise].
  intros st. simpl. destruct (run_process w _); reflexivity.
Qed.

#[local] Hint Resolve frames_ret frames_raise frames_sys_exit frames_get_args
  frames_emit frames_set_target_info frames_set_install_prefixes
  frames_lift_exn frames_popen : frames.
#[local] Hint Extern 2 (frames (bind _ _)) =>
  apply frames_bind; [| intros ?] : frames.
#[local] Hint Extern 2 (frames (try_except _ _)) =>
  apply frames_try_except; [| intros ?] : frames.
#[local] Hint Extern 2 (frames (for_each _ _)) =>
  apply frames_for_each; intros ? : frames.
#[local] Hint Extern 3 (frames (if _ then _ else _)) =>
  apply frames_if : frames.
#[local] Hint Extern 3 (frames (match ?x with _ => _ end)) =>
  destruct x : frames.

Ltac frames_tac := repeat (intros; simpl; auto 20 with frames).

Lemma frames_check_call w cmd env v : frames (check_call w cmd env v).
Proof.
  unfold check_call, print_cmd, print, subprocess_check_call. frames_tac.
Qed.

Lemma frames_check_output w cmd env : frames (subprocess_check_output w cmd env).
Proof. unfold subprocess_check_output. frames_tac. Qed.

Lemma frames_fatal_error {A} (m : string) : frames (@fatal_error A m).
Proof. unfold fatal_error. frames_tac. Qed.

#[local] Hint Resolve frames_check_call frames_check_output
  frames_fatal_error : frames.

Lemma frames_get_build_target w se : frames (get_build_target w se).
Proof. unfold get_build_target. frames_tac. Qed.

#[local] Hint Resolve frames_get_build_target : frames.

Lemma frames_get_swiftpm_options w se : frames (get_swiftpm_options w se).
Proof. unfold get_swiftpm_options, print. frames_tac. Qed.

Lemma frames_get_swiftpm_environment_variables w se :
  frames (get_swiftpm_environment_variables w se).
Proof. unfold get_swiftpm_environment_variables. frames_tac. Qed.

#[local] Hint Resolve frames_get_swiftpm_options
  frames_get_swiftpm_environment_variables : frames.

Lemma frames_handle_invocation w se : frames (handle_invocation w se).
Proof.
  unfold handle_invocation, build_single_product, run_tests, install,
    install_binary, swiftpm_bin_path, print_cmd, print.
  frames_tac.
Qed.

Lemma frames_build_single_product w p se : frames (build_single_product w p se).
Proof. unfold build_single_product. frames_tac. Qed.

(** The attributes that [erase] keeps are equal in records that agree
    after [erase]. *)
Lemma erase_fields (a b : Namespace) :
  erase a = erase b →
  action a = action b ∧ package_path a = package_path b
  ∧ toolchain a = toolchain b ∧ build_path a = build_path b
  ∧ configuration a = configuration b ∧ sanitize a = sanitize b
  ∧ sanitize_all a = sanitize_all b ∧ verbose a = verbose b
  ∧ cross_compile_host a = cross_compile_host b
  ∧ cross_compile_config a = cross_compile_config b.
Proof.
  intros H.
  repeat split;
    [ apply (f_equal action) in H | apply (f_equal package_path) in H
    | apply (f_equal toolchain) in H | apply (f_equal build_path) in H
    | apply (f_equal configuration) in H | apply (f_equal sanitize) in H
    | apply (f_equal sanitize_all) in H | apply (f_equal verbose) in H
    | apply (f_equal cross_compile_host) in H
    | apply (f_equal cross_compile_config) in H ];
    exact H.
Qed.

(* ------------------------------------------------------------------------ *)
(** ** The target resolver *)

(** Every call starts the introspection child, whatever the record holds;
    the only other thing it may do is print the fatal message. *)
Lemma get_build_target_trace w se st :
  ∃ tail,
    st_trace (get_build_target w se st).2
    = st_trace st ++ Spawn (target_info_cmd se) None :: tail
    ∧ (tail = [] ∨ ∃ m, tail = [Stderr m])
    ∧ (∀ bt, (get_build_target w se st).1 = Ok bt → tail = []).
Proof.
  unfold get_build_target, try_except, subprocess_check_output, bind, popen,
    fatal_error, bind, emit, sys_exit, modify_args, lift_exn, raise, ret.
  simpl.
  repeat (case_match; simpl in *; simplify_eq; simpl);
    try (exists []; split; [reflexivity | split; [left; reflexivity | done]]);
    (eexists [_]; rewrite <- app_assoc; simpl;
     split; [reflexivity | split; [right; eauto | done]]).
Qed.

Lemma get_build_target_ok w se st bt st1 :
  get_build_target w se st = (Ok bt, st1) →
  st_trace st1 = st_trace st ++ [Spawn (target_info_cmd se) None]
  ∧ erase (st_args st1) = erase (st_args st).
Proof.
  intros H.
  destruct (get_build_target_trace w se st) as (tail & Htr & _ & Hok).
  pose proof (frames_get_build_target w se st) as Hfr.
  rewrite H in Htr, Hok, Hfr. simpl in *.
  rewrite (Hok bt eq_refl) in Htr. auto.
Qed.

(** The stored [target_info] is never read back. *)
Lemma get_build_target_ignores_target_info w se a tr v :
  let r := get_build_target w se (mkState a tr) in
  let r' := get_build_target w se (mkState (set_target_info v a) tr) in
  r'.1 = r.1 ∧ st_trace r'.2 = st_trace r.2.
Proof.
  unfold get_build_target, try_except, subprocess_check_output, bind, popen,
    fatal_error, bind, emit, sys_exit, modify_args, lift_exn, raise, ret.
  simpl.
  repeat (case_match; simpl in *; simplify_eq; simpl);
    split; congruence.
Qed.

(** The resolver reads nothing at all from the record. *)
Lemma get_build_target_ignores_record w se a a' tr :
  let r := get_build_target w se (mkState a tr) in
  let r' := get_build_target w se (mkState a' tr) in
  r'.1 = r.1 ∧ st_trace r'.2 = st_trace r.2.
Proof.
  unfold get_build_target, try_except, subprocess_check_output, bind, popen,
    fatal_error, bind, emit, sys_exit, modify_args, lift_exn, raise, ret.
  simpl.
  repeat (case_match; simpl in *; simplify_eq; simpl);
    split; congruence.
Qed.

(** What the resolver leaves in the record: the parsed description in
    [target_info] when the child exited with status 0 and its output was
    parsed, and the record as it was in every other case. *)
Lemma get_build_target_stores w se st :
  let run := get_build_target w se st in
  let tr := st_trace st ++ [Spawn (target_info_cmd se) None] in
  (∀ out info,
     run_process w tr = Exited 0 out →
     json_loads w (PyStr.strip out) = Some info →
     st_args run.2 = set_target_info (Some info) (st_args st))
  ∧ ((∀ out,
        run_process w tr = Exited 0 out →
        json_loads w (PyStr.strip out) = None) →
     st_args run.2 = st_args st).
Proof.
  unfold get_build_target, try_except, subprocess_check_output, bind, popen,
    fatal_error, bind, emit, sys_exit, modify_args, lift_exn, raise, ret,
    target_info_cmd.
  simpl. split.
  - intros out info Hr Hj. rewrite Hr. simpl. rewrite Hj. simpl.
    destruct (is_darwin w), (subscript info "target") as [e | t]; simpl;
      try reflexivity;
      destruct (subscript t _); reflexivity.
  - intros H.
    destruct (run_process w _) as [rc out | rc |]; simpl;
      [| destruct (is_darwin w); reflexivity ..].
    destruct (Z.eqb_spec rc 0) as [-> | Hne]; simpl;
      [| destruct (is_darwin w); reflexivity].
    rewrite (H out eq_refl). simpl. destruct (is_darwin w); reflexivity.
Qed.

(* ------------------------------------------------------------------------ *)
(** ** Argument checks *)

(** What [parse_args] leaves in the record when it returns. *)
Lemma parse_args_ok w st :
  truthy_list (sanitize (st_args st)) && sanitize_all (st_args st) = false →
  parse_args w st
  = (Ok tt,
     mkState
       (set_toolchain (PosixPath.abspath (getcwd w) (toolchain (st_args st)))
          (set_build_path (PosixPath.abspath (getcwd w) (build_path (st_args st)))
             (set_package_path
                (PosixPath.abspath (getcwd w) (package_path (st_args st)))
                (st_args st))))
       (st_trace st)).
Proof.
  intros H. unfold parse_args, bind, get_args, modify_args, ret. simpl.
  rewrite H. reflexivity.
Qed.

(** C2. Whenever both [--sanitize] (a non-empty list, as [argparse]
    produces it) and [--sanitize-all] are set, the run ends in
    [SystemExit(1)]; the only thing it has done is print the message on
    stderr, so the exit status is non-zero and no child was started. *)
Theorem sanitize_and_sanitize_all_fatal w ns s l :
  sanitize ns = Some (s :: l) →
  sanitize_all ns = true →
  main w (init ns)
  = (Exit 1, mkState ns [Stderr "cannot combine --sanitize with --sanitize-all"])
  ∧ exit_status (main w (init ns)).1 ≠ 0
  ∧ Forall (λ e, is_spawn e = false) (st_trace (main w (init ns)).2).
Proof.
  intros Hs Ha.
  assert (main w (init ns)
          = (Exit 1,
             mkState ns [Stderr "cannot combine --sanitize with --sanitize-all"]))
    as E.
  { unfold main, parse_args, bind, get_args, fatal_error, bind, emit, sys_exit,
      init. simpl. rewrite Hs, Ha. reflexivity. }
  rewrite E. simpl. split; [reflexivity |]. split; [lia |].
  repeat constructor.
Qed.

Lemma sanitize_and_sanitize_all_fatal_witness :
  exit_status (main Sample.linux (init (Sample.ns_both "build"))).1 ≠ 0.
Proof.
  apply (sanitize_and_sanitize_all_fatal Sample.linux (Sample.ns_both "build")
           "address" []); reflexivity.
Defined.

(* ------------------------------------------------------------------------ *)
(** ** Cross-compilation in option assembly *)

Lemma match_android_not_macosx (h : string) :
  match_android h = true → String.eqb h "macosx-arm64" = false.
Proof.
  destruct h as [| c h]; [discriminate |].
  unfold match_android, PyStr.startswith. cbn [String.prefix].
  destruct (ascii_dec "a" c) as [<- | n]; [reflexivity | discriminate].
Qed.

Lemma match_android_truthy (h : string) :
  match_android h = true → PyStr.truthy h = true.
Proof. destruct h; [discriminate | reflexivity]. Qed.

(** C5. When the target resolver answers [x86_64-apple-macosx] and the
    cross-compile host is [macosx-arm64], option assembly returns, and the
    list it returns ends with [--arch x86_64 --arch arm64]. *)
Theorem macosx_arm64_adds_both_arch_flags w se st st1 :
  get_build_target w se st = (Ok (JStr "x86_64-apple-macosx"), st1) →
  cross_compile_host (st_args st) = Some "macosx-arm64" →
  ∃ opts,
    get_swiftpm_options w se st
    = (Ok (opts ++ strs ["--arch"; "x86_64"; "--arch"; "arm64"]), st1).
Proof.
  intros Hbt Hh.
  destruct (get_build_target_ok _ _ _ _ _ Hbt) as [_ Hfr].
  apply erase_fields in Hfr.
  destruct Hfr as (_ & _ & _ & _ & _ & _ & _ & _ & Hh1 & _).
  rewrite Hh in Hh1.
  unfold get_swiftpm_options, bind, get_args. simpl.
  rewrite Hbt. simpl. rewrite Hh1. simpl.
  eexists. reflexivity.
Qed.

Lemma macosx_arm64_adds_both_arch_flags_witness :
  ∃ opts,
    get_swiftpm_options Sample.darwin "/tc/bin/swift"
      (init (Sample.ns_cross "build" "macosx-arm64" None))
    = (Ok (opts ++ strs ["--arch"; "x86_64"; "--arch"; "arm64"]),
       (get_build_target Sample.darwin "/tc/bin/swift"
          (init (Sample.ns_cross "build" "macosx-arm64" None))).2).
Proof.
  apply (macosx_arm64_adds_both_arch_flags Sample.darwin "/tc/bin/swift"
           (init (Sample.ns_cross "build" "macosx-arm64" None))).
  - vm_compute. reflexivity.
  - reflexivity.
Defined.

(** Each action starts with option assembly, so a [SystemExit] there is
    the end of the action. *)
Lemma handle_invocation_options_exit w se st c st1 :
  get_swiftpm_options w se st = (Exit c, st1) →
  action (st_args st) = "build" ∨ action (st_args st) = "test"
  ∨ action (st_args st) = "install" →
  handle_invocation w se st = (Exit c, st1).
Proof.
  intros H Ha. unfold handle_invocation, bind, get_args. cbn beta iota.
  destruct Ha as [-> | [-> | ->]]; cbn [String.eqb Ascii.eqb Bool.eqb].
  - unfold products, for_each, build_single_product, bind. rewrite H.
    reflexivity.
  - unfold run_tests, bind. rewrite H. reflexivity.
  - unfold install, bind. rewrite H. reflexivity.
Qed.

(** C4. With a cross-compile host (a non-empty string: the script tests
    the attribute's truth value) that does not start with [android-], and
    that is not [macosx-arm64] on a resolved triple [x86_64-apple-macosx],
    option assembly ends in [SystemExit(1)].  By then it has started the
    introspection child and printed [cannot cross-compile for HOST] on
    stderr, and nothing else; the action ends there in the same way, so no
    [swift build] is ever started. *)
Theorem unsupported_cross_compile_host_fatal w se st h bt st1 :
  cross_compile_host (st_args st) = Some h →
  PyStr.truthy h = true →
  match_android h = false →
  get_build_target w se st = (Ok bt, st1) →
  json_eq_str bt "x86_64-apple-macosx" && String.eqb h "macosx-arm64" = false →
  let failed :=
    (@Exit unit 1,
     mkState (st_args st1)
       (st_trace st
          ++ [Spawn (target_info_cmd se) None;
              Stderr ("cannot cross-compile for " +:+ h)])) in
  (get_swiftpm_options w se st).2 = failed.2
  ∧ (get_swiftpm_options w se st).1 = Exit 1
  ∧ exit_status (get_swiftpm_options w se st).1 ≠ 0
  ∧ (action (st_args st) = "build" ∨ action (st_args st) = "test"
     ∨ action (st_args st) = "install" →
     handle_invocation w se st = failed).
Proof.
  intros Hh Ht Ha Hbt Hm failed.
  destruct (get_build_target_ok _ _ _ _ _ Hbt) as [Htr Hfr].
  apply erase_fields in Hfr.
  destruct Hfr as (_ & _ & _ & _ & _ & _ & _ & _ & Hh1 & _).
  rewrite Hh in Hh1.
  assert (get_swiftpm_options w se st
          = (Exit 1,
             mkState (st_args st1)
               (st_trace st
                  ++ [Spawn (target_info_cmd se) None;
                      Stderr ("cannot cross-compile for " +:+ h)]))) as E.
  { unfold get_swiftpm_options, bind, get_args. simpl.
    rewrite Hbt. simpl. rewrite Hh1, Ht, Hm, Ha.
    unfold fatal_error, bind, emit, sys_exit. simpl.
    rewrite Htr, <- app_assoc. reflexivity. }
  split; [rewrite E; reflexivity |].
  split; [rewrite E; reflexivity |].
  split; [rewrite E; simpl; lia |].
  intros Hact. apply handle_invocation_options_exit; assumption.
Qed.

Lemma unsupported_cross_compile_host_fatal_witness :
  exit_status
    (get_swiftpm_options Sample.linux "/tc/bin/swift"
       (init (Sample.ns_cross "build" "riscv-elf" None))).1 ≠ 0.
Proof.
  eapply (unsupported_cross_compile_host_fatal Sample.linux "/tc/bin/swift"
            (init (Sample.ns_cross "build" "riscv-elf" None)) "riscv-elf").
  - reflexivity.
  - reflexivity.
  - reflexivity.
  - vm_compute. reflexivity.
  - reflexivity.
Defined.

(** C6, as the script has it.  With a cross-compile host that starts with
    [android-], option assembly never looks at whether a destination
    descriptor was given: once the introspection child has run it prints
    [Cross-compiling for HOST] and returns the options, ending with
    [--destination] and the value of [cross_compile_config] as it is
    ([None] when the flag was not passed). *)
Theorem android_destination_unchecked w se st h bt st1 :
  cross_compile_host (st_args st) = Some h →
  match_android h = true →
  get_build_target w se st = (Ok bt, st1) →
  ∃ opts,
    get_swiftpm_options w se st
    = (Ok (opts
             ++ [Str "--destination"; arg_of (cross_compile_config (st_args st))]),
       mkState (st_args st1)
         (st_trace st
            ++ [Spawn (target_info_cmd se) None;
                Stdout ("Cross-compiling for " +:+ h)])).
Proof.
  intros Hh Ha Hbt.
  destruct (get_build_target_ok _ _ _ _ _ Hbt) as [Htr Hfr].
  apply erase_fields in Hfr.
  destruct Hfr as (_ & _ & _ & _ & _ & _ & _ & _ & Hh1 & Hc1).
  rewrite Hh in Hh1.
  unfold get_swiftpm_options, bind, get_args. simpl.
  rewrite Hbt. simpl.
  rewrite Hh1, (match_android_truthy _ Ha), (match_android_not_macosx _ Ha), Ha.
  rewrite andb_false_r. unfold print, emit, ret. simpl.
  rewrite Hc1, Htr, <- app_assoc. simpl.
  eexists. reflexivity.
Qed.

Lemma android_destination_unchecked_witness :
  ∃ opts,
    (get_swiftpm_options Sample.linux "/tc/bin/swift"
       (init (Sample.ns_cross "build" "android-aarch64" None))).1
    = Ok (opts ++ [Str "--destination"; NoneArg]).
Proof.
  destruct (android_destination_unchecked Sample.linux "/tc/bin/swift"
              (init (Sample.ns_cross "build" "android-aarch64" None))
              "android-aarch64"
              (JStr "x86_64-unknown-linux-gnu")
              (get_build_target Sample.linux "/tc/bin/swift"
                 (init (Sample.ns_cross "build" "android-aarch64" None))).2)
    as [opts E].
  - reflexivity.
  - reflexivity.
  - vm_compute. reflexivity.
  - exists opts. rewrite E. reflexivity.
Defined.

(** C6, as stated, fails: on Linux,
    [build --toolchain /tc --cross-compile-host android-aarch64] with no
    [--cross-compile-config] starts the introspection child, and the run
    then ends in an uncaught [TypeError] when the option list holding
    [None] is handed to [subprocess]; there is no [SystemExit] and nothing
    on stderr from the script. *)
Lemma android_destination_absent_counterexample :
  let ns := Sample.ns_cross "build" "android-aarch64" None in
  let run := main Sample.linux (init ns) in
  cross_android ns = true
  ∧ cross_compile_config ns = None
  ∧ run.1 = Raise TypeError
  ∧ st_trace run.2
    = [Spawn (target_info_cmd "/tc/bin/swift") None;
       Stdout "Cross-compiling for android-aarch64"]
  ∧ ¬ Forall (λ e, is_spawn e = false) (st_trace run.2).
Proof.
  vm_compute. repeat split; try reflexivity.
  intros H. inversion H as [| ? ? H1 _]. discriminate H1.
Qed.

(* ------------------------------------------------------------------------ *)
(** ** Option assembly and the target resolver *)

(** What remains of [get_swiftpm_options] once the target is resolved. *)
Lemma get_swiftpm_options_unfold w se st :
  ∃ opts : list arg,
    get_swiftpm_options w se st
    = match get_build_target w se st with
      | (Ok bt, st1) =>
          match cross_compile_host (st_args st) with
          | Some host =>
              if PyStr.truthy host then
                if json_eq_str bt "x86_64-apple-macosx"
                   && String.eqb host "macosx-arm64"
                then (Ok (opts ++ strs ["--arch"; "x86_64"; "--arch"; "arm64"]),
                      st1)
                else if match_android host then
                  (Ok (opts ++ [Str "--destination";
                                arg_of (cross_compile_config (st_args st))]),
                   mkState (st_args st1)
                     (st_trace st1 ++ [Stdout ("Cross-compiling for " +:+ host)]))
                else
                  (Exit 1,
                   mkState (st_args st1)
                     (st_trace st1 ++ [Stderr ("cannot cross-compile for " +:+ host)]))
              else (Ok opts, st1)
          | None => (Ok opts, st1)
          end
      | (Exit c, st1) => (Exit c, st1)
      | (Raise e, st1) => (Raise e, st1)
      end.
Proof.
  pose proof (frames_get_build_target w se st) as Hfr.
  unfold get_swiftpm_options, bind, get_args. simpl.
  destruct (get_build_target w se st) as [[bt | c | e] st1]; simpl in *;
    [| exists []; reflexivity | exists []; reflexivity].
  apply erase_fields in Hfr.
  destruct Hfr as (_ & _ & _ & _ & _ & _ & _ & _ & -> & ->).
  eexists.
  destruct (cross_compile_host (st_args st)) as [host |]; [| reflexivity].
  destruct (PyStr.truthy host); [| reflexivity].
  destruct (json_eq_str bt "x86_64-apple-macosx" && String.eqb host "macosx-arm64");
    [reflexivity |].
  destruct (match_android host); reflexivity.
Qed.

Lemma get_swiftpm_options_trace w se st :
  ∃ tail,
    st_trace (get_swiftpm_options w se st).2
    = st_trace st ++ Spawn (target_info_cmd se) None :: tail
    ∧ Forall (λ e, is_spawn e = false) tail.
Proof.
  destruct (get_swiftpm_options_unfold w se st) as [opts ->].
  destruct (get_build_target_trace w se st) as (tail & Htr & Htail & _).
  assert (Forall (λ e, is_spawn e = false) tail) as Hns.
  { destruct Htail as [-> | [m ->]]; repeat constructor. }
  destruct (get_build_target w se st) as [[bt | c | e] st1]; simpl in *;
    [| eauto | eauto].
  repeat case_match; simpl; rewrite ?Htr; eauto;
    rewrite <- app_assoc; simpl; eexists; (split; [reflexivity |]);
    apply Forall_app; split; trivial; repeat constructor.
Qed.

Lemma get_swiftpm_options_ignores_target_info w se a tr v :
  let r := get_swiftpm_options w se (mkState a tr) in
  let r' := get_swiftpm_options w se (mkState (set_target_info v a) tr) in
  r'.1 = r.1 ∧ st_trace r'.2 = st_trace r.2.
Proof.
  pose proof (get_build_target_ignores_target_info w se a tr v) as [H1 H2].
  pose proof (frames_get_build_target w se (mkState a tr)) as F1.
  pose proof (frames_get_build_target w se (mkState (set_target_info v a) tr))
    as F2.
  apply erase_fields in F1, F2.
  destruct F1 as (_ & _ & _ & _ & _ & _ & _ & _ & Fh & Fc).
  destruct F2 as (_ & _ & _ & _ & _ & _ & _ & _ & Fh' & Fc').
  unfold get_swiftpm_options, bind, get_args. simpl.
  destruct (get_build_target w se (mkState a tr)) as [[bt | c | e] s1],
    (get_build_target w se (mkState (set_target_info v a) tr))
      as [[bt' | c' | e'] s1'];
    simpl in *; simplify_eq; try done.
  rewrite Fh, Fc, Fh', Fc'.
  change (cross_android (set_target_info v a)) with (cross_android a).
  unfold print, fatal_error, bind, emit, sys_exit, ret.
  repeat (case_match; simpl); split; congruence.
Qed.

(** Option assembly reads neither [target_info] nor [install_prefixes]. *)
Lemma get_swiftpm_options_ignores_erased w se a a' tr :
  erase a' = erase a →
  let r := get_swiftpm_options w se (mkState a tr) in
  let r' := get_swiftpm_options w se (mkState a' tr) in
  r'.1 = r.1 ∧ st_trace r'.2 = st_trace r.2.
Proof.
  intros He.
  pose proof (erase_fields _ _ He)
    as (_ & Hp & Ht & Hb & Hc & Hs & _ & Hv & Hh & Hcc).
  pose proof (get_build_target_ignores_record w se a a' tr) as [H1 H2].
  pose proof (frames_get_build_target w se (mkState a tr)) as F1.
  pose proof (frames_get_build_target w se (mkState a' tr)) as F2.
  apply erase_fields in F1, F2.
  destruct F1 as (_ & _ & _ & _ & _ & _ & _ & _ & Fh & Fc).
  destruct F2 as (_ & _ & _ & _ & _ & _ & _ & _ & Fh' & Fc').
  unfold get_swiftpm_options, bind, get_args, cross_android. simpl in *.
  rewrite Hp, Ht, Hb, Hc, Hs, Hv, Hh. rewrite Hh in Fh'. rewrite Hcc in Fc'.
  destruct (get_build_target w se (mkState a tr)) as [[bt | c | e] s1],
    (get_build_target w se (mkState a' tr)) as [[bt' | c' | e'] s1'];
    simpl in *; simplify_eq; try done.
  rewrite Fh, Fc, Fh', Fc'.
  unfold print, fatal_error, bind, emit, sys_exit, ret.
  repeat (case_match; simpl); split; congruence.
Qed.

(** Option assembly leaves the record as the resolver left it. *)
Lemma get_swiftpm_options_args w se st :
  st_args (get_swiftpm_options w se st).2
  = st_args (get_build_target w se st).2.
Proof.
  destruct (get_swiftpm_options_unfold w se st) as [opts ->].
  destruct (get_build_target w se st) as [[bt | c | e] st1]; simpl;
    [| reflexivity | reflexivity].
  repeat case_match; reflexivity.
Qed.

(** C9, as the script has it.  Every option-assembly call starts the
    introspection child exactly once, first thing, and starts no other
    child; what it returns and does is the same whatever [target_info]
    the record already holds: the attribute is written by the resolver
    but never read back.  When the child exits with status 0 and its
    output is parsed, the parsed description is what the call leaves in
    [target_info], every other attribute being as before; when the child
    does not exit with status 0 or its output is not parsed, the record
    is left as it was. *)
Theorem option_assembly_always_introspects w se a tr v :
  let run := get_swiftpm_options w se (mkState a tr) in
  let run' := get_swiftpm_options w se (mkState (set_target_info v a) tr) in
  (∃ tail,
     st_trace run.2 = tr ++ Spawn (target_info_cmd se) None :: tail
     ∧ Forall (λ e, is_spawn e = false) tail)
  ∧ run'.1 = run.1
  ∧ st_trace run'.2 = st_trace run.2
  ∧ (∀ out info,
       run_process w (tr ++ [Spawn (target_info_cmd se) None]) = Exited 0 out →
       json_loads w (PyStr.strip out) = Some info →
       st_args run.2 = set_target_info (Some info) a)
  ∧ ((∀ out,
        run_process w (tr ++ [Spawn (target_info_cmd se) None]) = Exited 0 out →
        json_loads w (PyStr.strip out) = None) →
     st_args run.2 = a).
Proof.
  split; [apply (get_swiftpm_options_trace w se (mkState a tr)) |].
  destruct (get_swiftpm_options_ignores_target_info w se a tr v) as [H1 H2].
  destruct (get_build_target_stores w se (mkState a tr)) as [H3 H4].
  cbv zeta. rewrite get_swiftpm_options_args.
  split; [exact H1 |]. split; [exact H2 |]. split; [exact H3 | exact H4].
Qed.

Lemma option_assembly_always_introspects_witness :
  st_args
    (get_swiftpm_options Sample.linux "/tc/bin/swift"
       (init (Sample.ns "build"))).2
  = set_target_info (Some Sample.info) (Sample.ns "build").
Proof.
  destruct (option_assembly_always_introspects Sample.linux "/tc/bin/swift"
              (Sample.ns "build") [] None)
    as (_ & _ & _ & H & _).
  eapply H; reflexivity.
Defined.

(** C9, as stated, fails: after a first option assembly has stored the
    target description on the record, a second one for the same record
    starts the introspection child again. *)
Lemma target_not_memoized_counterexample :
  let st0 := init (Sample.ns "build") in
  let run1 := get_swiftpm_options Sample.linux "/tc/bin/swift" st0 in
  let run2 := get_swiftpm_options Sample.linux "/tc/bin/swift" run1.2 in
  target_info (st_args run1.2) = Some Sample.info
  ∧ Sample.cmds (st_trace run1.2) = [target_info_cmd "/tc/bin/swift"]
  ∧ Sample.cmds (st_trace run2.2)
    = [target_info_cmd "/tc/bin/swift"; target_info_cmd "/tc/bin/swift"].
Proof. vm_compute. repeat split. Qed.

(* ------------------------------------------------------------------------ *)
(** ** The build action *)

Lemma all_str_strs_app (l : list string) (x : list arg) :
  all_str (strs l ++ x) = (λ r, l ++ r) <$> all_str x.
Proof.
  unfold strs. induction l as [| s l IH]; simpl.
  - destruct (all_str x); reflexivity.
  - rewrite IH. destruct (all_str x); reflexivity.
Qed.

Lemma builds_ok_app w h d1 d2 :
  builds_ok w h (d1 ++ d2) = builds_ok w h d1 && builds_ok w (h ++ d1) d2.
Proof.
  revert h. induction d1 as [| e d1 IH]; intros h; simpl.
  - rewrite app_nil_r. reflexivity.
  - rewrite IH, <- app_assoc, andb_assoc. reflexivity.
Qed.

Lemma builds_ok_none w h d :
  Forall (λ e, product_of e = None) d → builds_ok w h d = true.
Proof.
  intros H. revert h. induction H as [| e d He _ IH]; intros h; simpl.
  - reflexivity.
  - rewrite He, IH. reflexivity.
Qed.

Lemma not_spawn_no_product (d : list event) :
  Forall (λ e, is_spawn e = false) d → Forall (λ e, product_of e = None) d.
Proof.
  intros H. eapply Forall_impl; [exact H |].
  intros [] He; try reflexivity. discriminate He.
Qed.

Lemma omap_no_product (d : list event) :
  Forall (λ e, product_of e = None) d → omap product_of d = [].
Proof.
  induction 1 as [| e d He _ IH]; simpl; [reflexivity |].
  rewrite He. exact IH.
Qed.

(** A failed product build inside a stretch of events that all went well
    is impossible. *)
Lemma builds_ok_inv w h d1 e d2 :
  builds_ok w h (d1 ++ e :: d2) = true →
  is_Some (product_of e) →
  child_ok w (h ++ d1 ++ [e]) = true.
Proof.
  rewrite builds_ok_app. simpl. intros H [p Hp]. rewrite Hp in H.
  rewrite app_assoc.
  destruct (builds_ok w h d1), (child_ok w ((h ++ d1) ++ [e]));
    simpl in H; congruence.
Qed.

Lemma check_call_shape w cmd env v st :
  let run := check_call w cmd env v st in
  ∃ pre,
    Forall (λ e, is_spawn e = false) pre
    ∧ ((st_trace run.2 = st_trace st ++ pre ∧ run.1 ≠ Ok tt)
       ∨ (∃ c,
            all_str cmd = Some c
            ∧ st_trace run.2 = st_trace st ++ pre ++ [Spawn c env]
            ∧ (run.1 = Ok tt ↔ child_ok w (st_trace run.2) = true))).
Proof.
  unfold check_call, print_cmd, print, subprocess_check_call, popen, bind,
    emit, lift_exn, raise, ret, child_ok.
  destruct v; simpl.
  - destruct (escape_all cmd) as [e | l]; simpl.
    + exists []. split; [constructor |]. left. rewrite app_nil_r. done.
    + exists [Stdout (PyStr.join " " l)]. split; [repeat constructor |].
      destruct (all_str cmd) as [c |] eqn:Hc; simpl; [| left; done].
      right. exists c. split; [reflexivity |].
      destruct (run_process w _) as [rc out | rc |] eqn:Hr; simpl;
        [destruct (Z.eqb_spec rc 0) as [-> | Hne]
        | destruct (Z.eqb_spec rc 0) as [-> | Hne] |];
        simpl; rewrite Hr;
        (split; [by rewrite <- app_assoc |]);
        first [done | destruct rc; done].
  - exists []. split; [constructor |].
    destruct (all_str cmd) as [c |] eqn:Hc; simpl.
    + right. exists c. split; [reflexivity |].
      destruct (run_process w _) as [rc out | rc |] eqn:Hr; simpl;
        [destruct (Z.eqb_spec rc 0) as [-> | Hne]
        | destruct (Z.eqb_spec rc 0) as [-> | Hne] |];
        simpl; rewrite Hr;
        (split; [reflexivity |]);
        first [done | destruct rc; done].
    + left. rewrite app_nil_r. done.
Qed.

Lemma get_swiftpm_environment_variables_pure w se st :
  ∃ env, get_swiftpm_environment_variables w se st = (Ok env, st).
Proof.
  unfold get_swiftpm_environment_variables, bind, get_args, ret. simpl.
  eexists. reflexivity.
Qed.

(** One product: some events that are not product builds, then either a
    failure, or the [swift build --product] child, on whose exit status
    the outcome depends. *)
Lemma build_single_product_shape w p se st :
  let run := build_single_product w p se st in
  ∃ pre,
    Forall (λ e, product_of e = None) pre
    ∧ ((st_trace run.2 = st_trace st ++ pre ∧ run.1 ≠ Ok tt)
       ∨ (∃ e,
            st_trace run.2 = st_trace st ++ pre ++ [e]
            ∧ product_of e = Some p
            ∧ (run.1 = Ok tt ↔ child_ok w (st_trace run.2) = true))).
Proof.
  unfold build_single_product, bind.
  destruct (get_swiftpm_options_trace w se st) as (tail & Htr & Hns).
  apply not_spawn_no_product in Hns.
  assert (Forall (λ e, product_of e = None)
            (Spawn (target_info_cmd se) None :: tail)) as Hns'.
  { constructor; [reflexivity | exact Hns]. }
  destruct (get_swiftpm_options w se st) as [[opts | c | e] st1];
    cbn [fst snd] in *;
    [| eexists; split; [exact Hns' |]; left; done ..].
  destruct (get_swiftpm_environment_variables_pure w se st1) as [env ->].
  unfold get_args. cbn beta iota.
  destruct (check_call_shape w
              (strs [se; "build"; "--product"; p] ++ opts) (Some env)
              (verbose (st_args st1)) st1)
    as (pre & Hpre & [[H1 H2] | (c & Hc & H1 & H2)]).
  - exists ((Spawn (target_info_cmd se) None :: tail) ++ pre).
    split; [apply Forall_app; split; auto using not_spawn_no_product |].
    left. split; [| exact H2].
    rewrite H1, Htr, <- app_assoc. reflexivity.
  - exists ((Spawn (target_info_cmd se) None :: tail) ++ pre).
    split; [apply Forall_app; split; auto using not_spawn_no_product |].
    right. exists (Spawn c (Some env)). split; [| split; [| exact H2]].
    + rewrite H1, Htr, <- !app_assoc. reflexivity.
    + rewrite all_str_strs_app in Hc.
      destruct (all_str opts) as [o |]; simpl in Hc; [| discriminate].
      injection Hc as <-. reflexivity.
Qed.

(** The products of a list, one after the other. *)
Lemma for_each_builds w se ps st :
  let run := for_each ps (λ p, build_single_product w p se) st in
  ∃ d,
    st_trace run.2 = st_trace st ++ d
    ∧ (run.1 = Ok tt →
       omap product_of d = ps ∧ builds_ok w (st_trace st) d = true)
    ∧ (run.1 ≠ Ok tt →
       ∃ d0 dl k,
         d = d0 ++ dl
         ∧ builds_ok w (st_trace st) d0 = true
         ∧ (length dl ≤ 1)%nat
         ∧ omap product_of d = take k ps).
Proof.
  revert st. induction ps as [| p ps IH]; intros st; simpl.
  - exists []. rewrite app_nil_r. repeat split; done.
  - unfold bind.
    destruct (build_single_product_shape w p se st)
      as (pre & Hpre & [[H1 H2] | (e & H1 & Hp & H2)]).
    + (* the product fails before its build child is started *)
      destruct (build_single_product w p se st) as [[[] | c | x] st1];
        simpl in *; [done | ..];
        (exists pre; split; [exact H1 |]; split; [done |]; intros _;
         exists pre, [], 0%nat; rewrite app_nil_r, (omap_no_product _ Hpre);
         repeat split; auto using builds_ok_none; simpl; lia).
    + destruct (build_single_product w p se st) as [[[] | c | x] st1];
        simpl in *.
      * (* the product is built; go on with the others *)
        destruct H2 as [H2 _]. specialize (H2 eq_refl).
        specialize (IH st1). cbv zeta in IH.
        destruct IH as (d & Hd & Hok & Hfail).
        assert (omap product_of (pre ++ [e]) = [p]) as Hom.
        { rewrite omap_app, (omap_no_product _ Hpre). simpl. rewrite Hp.
          reflexivity. }
        assert (builds_ok w (st_trace st) (pre ++ [e]) = true) as Hb.
        { rewrite builds_ok_app, (builds_ok_none _ _ _ Hpre). simpl.
          rewrite Hp, andb_true_r, <- app_assoc, <- H1. exact H2. }
        exists ((pre ++ [e]) ++ d). split; [| split].
        -- rewrite Hd, H1, <- !app_assoc. reflexivity.
        -- intros Hr. destruct (Hok Hr) as [Ho Hbo]. split.
           ++ rewrite omap_app, Hom, Ho. reflexivity.
           ++ rewrite builds_ok_app, Hb. simpl.
              rewrite <- H1. exact Hbo.
        -- intros Hr. destruct (Hfail Hr) as (d0 & dl & k & -> & Hb0 & Hl & Hk).
           exists ((pre ++ [e]) ++ d0), dl, (S k). repeat split.
           ++ rewrite <- !app_assoc. reflexivity.
           ++ rewrite builds_ok_app, Hb. simpl.
              rewrite <- H1. exact Hb0.
           ++ exact Hl.
           ++ rewrite omap_app, Hom, Hk. reflexivity.
      * (* the build child of the product fails *)
        exists (pre ++ [e]). split; [rewrite H1; reflexivity |].
        split; [done |]. intros _.
        exists pre, [e], 1%nat. repeat split; auto using builds_ok_none.
        rewrite omap_app, (omap_no_product _ Hpre). simpl. rewrite Hp.
        reflexivity.
      * exists (pre ++ [e]). split; [rewrite H1; reflexivity |].
        split; [done |]. intros _.
        exists pre, [e], 1%nat. repeat split; auto using builds_ok_none.
        rewrite omap_app, (omap_no_product _ Hpre). simpl. rewrite Hp.
        reflexivity.
Qed.

Lemma result_ok_dec (r : result unit) : r = Ok tt ∨ r ≠ Ok tt.
Proof. destruct r as [[] | c | e]; [left | right | right]; done. Qed.

Lemma snoc_split {A} (d1 : list A) (e : A) (d2 d0 : list A) (x : A) :
  d1 ++ e :: d2 = d0 ++ [x] →
  d2 = [] ∨ ∃ d2', d0 = d1 ++ e :: d2'.
Proof.
  intros H. destruct d2 as [| y d2 _] using rev_ind; [left; reflexivity |].
  right. exists d2.
  change (d1 ++ e :: d2 ++ [y]) with (d1 ++ (e :: d2) ++ [y]) in H.
  rewrite app_assoc in H. apply app_inj_tail in H as [H _]. symmetry. exact H.
Qed.

Lemma escapeCmdArg_str (s : string) : ∃ t, escapeCmdArg (Str s) = inr t.
Proof. unfold escapeCmdArg. destruct (_ || _); eauto. Qed.

(** Printing a command fails exactly when the command holds [None]. *)
Lemma escape_all_all_str (cmd : list arg) :
  match all_str cmd with
  | Some _ => ∃ l, escape_all cmd = inr l
  | None => escape_all cmd = inl TypeError
  end.
Proof.
  induction cmd as [| [s |] cmd IH]; cbn [all_str escape_all].
  - eauto.
  - destruct (escapeCmdArg_str s) as [t ->].
    destruct (all_str cmd) as [c |];
      [destruct IH as [l ->]; eauto | rewrite IH; done].
  - reflexivity.
Qed.

(** [check_call] on a command of strings: at most a line of text, then
    the child, on whose exit status the outcome depends. *)
Lemma check_call_started w cmd c env v st :
  all_str cmd = Some c →
  let run := check_call w cmd env v st in
  ∃ pre,
    Forall (λ e, is_spawn e = false) pre
    ∧ st_trace run.2 = st_trace st ++ pre ++ [Spawn c env]
    ∧ (run.1 = Ok tt ↔ child_ok w (st_trace run.2) = true).
Proof.
  intros Hc. pose proof (escape_all_all_str cmd) as He.
  rewrite Hc in He. destruct He as [l He].
  unfold check_call, print_cmd, print, subprocess_check_call, popen, bind,
    emit, lift_exn, raise, ret, child_ok.
  rewrite Hc, He.
  destruct v; simpl.
  - exists [Stdout (PyStr.join " " l)]. split; [repeat constructor |].
    destruct (run_process w _) as [rc out | rc |] eqn:Hr; simpl;
      [destruct (Z.eqb_spec rc 0) as [-> | Hne]
      | destruct (Z.eqb_spec rc 0) as [-> | Hne] |];
      simpl; rewrite Hr;
      (split; [by rewrite <- app_assoc |]);
      first [done | destruct rc; done].
  - exists []. split; [constructor |].
    destruct (run_process w _) as [rc out | rc |] eqn:Hr; simpl;
      [destruct (Z.eqb_spec rc 0) as [-> | Hne]
      | destruct (Z.eqb_spec rc 0) as [-> | Hne] |];
      simpl; rewrite Hr;
      (split; [reflexivity |]);
      first [done | destruct rc; done].
Qed.

(** [check_call] on a command that holds [None] starts nothing. *)
Lemma check_call_not_started w cmd env v st :
  all_str cmd = None →
  check_call w cmd env v st = (Raise TypeError, st).
Proof.
  intros Hc. pose proof (escape_all_all_str cmd) as He. rewrite Hc in He.
  unfold check_call, print_cmd, print, subprocess_check_call, popen, bind,
    emit, lift_exn, raise, ret.
  rewrite Hc, He. destruct v; reflexivity.
Qed.

(** One product, by the outcome of its option assembly: when the options
    are strings the build child for the product is started, and the
    outcome is that of the child; otherwise nothing more is done and the
    product fails. *)
Lemma build_single_product_progress w p se st :
  let prep := get_swiftpm_options w se st in
  let run := build_single_product w p se st in
  match prep.1 with
  | Ok opts =>
      match all_str opts with
      | Some o =>
          ∃ pre env,
            Forall (λ e, is_spawn e = false) pre
            ∧ st_trace run.2
              = st_trace prep.2 ++ pre
                  ++ [Spawn (se :: "build" :: "--product" :: p :: o) (Some env)]
            ∧ (run.1 = Ok tt ↔ child_ok w (st_trace run.2) = true)
      | None => st_trace run.2 = st_trace prep.2 ∧ run.1 ≠ Ok tt
      end
  | _ => st_trace run.2 = st_trace prep.2 ∧ run.1 ≠ Ok tt
  end.
Proof.
  unfold build_single_product, bind.
  destruct (get_swiftpm_options w se st) as [[opts | c | e] st1];
    cbn [fst snd]; [| done | done].
  destruct (get_swiftpm_environment_variables_pure w se st1) as [env ->].
  unfold get_args. cbn beta iota.
  pose proof (all_str_strs_app [se; "build"; "--product"; p] opts) as Hc.
  destruct (all_str opts) as [o |]; cbn [fmap option_fmap option_map] in Hc.
  - destruct (check_call_started w _ _ (Some env) (verbose (st_args st1)) st1 Hc)
      as (pre & Hpre & H1 & H2).
    exists pre, env. split; [exact Hpre |]. split; [exact H1 | exact H2].
  - rewrite (check_call_not_started _ _ _ _ _ Hc). done.
Qed.

(** The products of a list, one after the other, when the loop does not
    reach its end: either its last event is a product build that did not
    exit with status 0, or, after product builds that all went well, an
    option assembly did not return a list of strings. *)
Lemma for_each_builds_progress w se a0 ps st :
  erase (st_args st) = erase a0 →
  let run := for_each ps (λ p, build_single_product w p se) st in
  run.1 ≠ Ok tt →
  ∃ d,
    st_trace run.2 = st_trace st ++ d
    ∧ ((∃ d1 e,
          d = d1 ++ [e] ∧ is_Some (product_of e)
          ∧ child_ok w (st_trace st ++ d) = false)
       ∨ (∃ d1 d2,
            d = d1 ++ d2
            ∧ builds_ok w (st_trace st) d1 = true
            ∧ omap product_of d2 = []
            ∧ assembly_fails w se a0 (st_trace st ++ d1) d2)).
Proof.
  revert st. induction ps as [| p ps IH]; intros st Hfr; simpl; [done |].
  unfold bind.
  pose proof (build_single_product_progress w p se st) as Hp.
  pose proof (frames_build_single_product w p se st) as Hfr1.
  destruct (get_swiftpm_options_trace w se st) as (tail & Htr & Hns).
  apply not_spawn_no_product in Hns.
  assert (Forall (λ e, product_of e = None)
            (Spawn (target_info_cmd se) None :: tail)) as Hns'.
  { constructor; [reflexivity | exact Hns]. }
  assert (∀ tr, tr = st_trace st →
            (get_swiftpm_options w se (mkState a0 tr)).1
            = (get_swiftpm_options w se st).1
            ∧ st_trace (get_swiftpm_options w se (mkState a0 tr)).2
              = st_trace (get_swiftpm_options w se st).2) as Hbase.
  { intros tr ->. destruct st as [a tr]. simpl in Hfr.
    destruct (get_swiftpm_options_ignores_erased w se a a0 tr)
      as [E1 E2]; [congruence |].
    simpl. split; congruence. }
  cbv zeta in Hp.
  assert (∀ r st2,
            build_single_product w p se st = (r, st2) → r ≠ Ok tt →
            st_trace st2 = st_trace (get_swiftpm_options w se st).2 →
            match (get_swiftpm_options w se st).1 with
            | Ok opts => all_str opts = None
            | _ => True
            end →
            ∃ d,
              st_trace st2 = st_trace st ++ d
              ∧ ((∃ d1 e,
                    d = d1 ++ [e] ∧ is_Some (product_of e)
                    ∧ child_ok w (st_trace st ++ d) = false)
                 ∨ (∃ d1 d2,
                      d = d1 ++ d2
                      ∧ builds_ok w (st_trace st) d1 = true
                      ∧ omap product_of d2 = []
                      ∧ assembly_fails w se a0 (st_trace st ++ d1) d2))) as Hprep.
  { intros r st2 _ _ H1 H2.
    exists (Spawn (target_info_cmd se) None :: tail).
    split; [congruence |]. right.
    exists [], (Spawn (target_info_cmd se) None :: tail).
    split; [reflexivity |]. split; [reflexivity |].
    split; [apply omap_no_product, Hns' |].
    unfold assembly_fails. rewrite app_nil_r.
    destruct (Hbase _ eq_refl) as [-> ->]. split; [exact Htr | exact H2]. }
  destruct (build_single_product w p se st) as [r st2] eqn:Hrun.
  cbn [fst snd] in Hp, Hfr1.
  destruct (get_swiftpm_options w se st) as [[opts | c | e] st1] eqn:Hopt;
    cbn [fst snd] in *.
  2,3: destruct Hp as [Hp1 Hp2];
       destruct r as [[] | c' | e']; [done | ..]; intros _;
       apply (Hprep _ _ eq_refl Hp2 Hp1 I).
  destruct (all_str opts) as [o |] eqn:Ho.
  2: { destruct Hp as [Hp1 Hp2].
       destruct r as [[] | c' | e']; [done | ..]; intros _;
         apply (Hprep _ _ eq_refl Hp2 Hp1 eq_refl). }
  destruct Hp as (pre & env & Hpre & Hp1 & Hp2).
  apply not_spawn_no_product in Hpre.
  set (e := Spawn (se :: "build" :: "--product" :: p :: o) (Some env)) in *.
  set (dp := (Spawn (target_info_cmd se) None :: tail) ++ pre) in *.
  assert (st_trace st2 = st_trace st ++ dp ++ [e]) as Htr2.
  { rewrite Hp1, Htr. unfold dp. rewrite <- !app_assoc. reflexivity. }
  assert (Forall (λ e, product_of e = None) dp) as Hdp.
  { apply Forall_app. split; assumption. }
  destruct r as [[] | c' | e']; cbn [fst snd] in *.
  - (* the product is built; go on with the others *)
    destruct Hp2 as [Hp2 _]. specialize (Hp2 eq_refl).
    intros Hr.
    destruct (IH st2 (eq_trans Hfr1 Hfr) Hr) as (d & Hd & Hcase).
    exists ((dp ++ [e]) ++ d).
    split; [rewrite Hd, Htr2, <- !app_assoc; reflexivity |].
    assert (builds_ok w (st_trace st) (dp ++ [e]) = true) as Hb.
    { rewrite builds_ok_app, (builds_ok_none _ _ _ Hdp). simpl.
      rewrite andb_true_r, <- app_assoc, <- Htr2. exact Hp2. }
    destruct Hcase as [(d1 & x & -> & Hx & Hc) | (d1 & d2 & -> & Hb1 & Hd2 & Ha)].
    + left. exists ((dp ++ [e]) ++ d1), x.
      split; [rewrite <- !app_assoc; reflexivity |]. split; [exact Hx |].
      rewrite Htr2 in Hc. rewrite <- Hc. f_equal.
      rewrite <- !app_assoc. reflexivity.
    + right. exists ((dp ++ [e]) ++ d1), d2.
      split; [rewrite <- !app_assoc; reflexivity |].
      split; [rewrite builds_ok_app, Hb, andb_true_l, <- Htr2; exact Hb1 |].
      split; [exact Hd2 |].
      rewrite Htr2 in Ha.
      replace (st_trace st ++ (dp ++ [e]) ++ d1)
        with ((st_trace st ++ dp ++ [e]) ++ d1)
        by (rewrite <- !app_assoc; reflexivity).
      exact Ha.
  - (* the build child of the product fails *)
    intros _. exists (dp ++ [e]). split; [exact Htr2 |]. left.
    exists dp, e. split; [reflexivity |]. split; [by eexists |].
    rewrite <- Htr2.
    destruct (child_ok w (st_trace st2)); [| reflexivity].
    destruct Hp2 as [_ Hp2]. discriminate (Hp2 eq_refl).
  - intros _. exists (dp ++ [e]). split; [exact Htr2 |]. left.
    exists dp, e. split; [reflexivity |]. split; [by eexists |].
    rewrite <- Htr2.
    destruct (child_ok w (st_trace st2)); [| reflexivity].
    destruct Hp2 as [_ Hp2]. discriminate (Hp2 eq_refl).
Qed.

(** C3. The build action starts [swift build --product P] for the three
    products in the order SourceKitLSPPackageTests, _SourceKitLSP,
    sourcekit-lsp, once each: the product builds it has started are always
    a prefix of that list, and all of it when the action succeeds, in
    which case every one of them exited with status 0.  A product build
    that does not exit with status 0 is the last thing the action does,
    and the action fails; in particular, when the build of _SourceKitLSP
    fails, no build of sourcekit-lsp is started.  The action fails for no
    other reason than these two: its last event is a product build that
    did not exit with status 0, or, after product builds that all exited
    with status 0, the option assembly for the next product did not
    return a list of strings. *)
Theorem build_products_in_order_fail_fast w se st :
  action (st_args st) = "build" →
  let run := handle_invocation w se st in
  ∃ d,
    st_trace run.2 = st_trace st ++ d
    ∧ (∃ k, omap product_of d = take k products)
    ∧ (run.1 = Ok tt → omap product_of d = products)
    ∧ (∀ d1 e d2,
         d = d1 ++ e :: d2 →
         is_Some (product_of e) →
         child_ok w (st_trace st ++ d1 ++ [e]) = false →
         d2 = [] ∧ run.1 ≠ Ok tt)
    ∧ (∀ d1 e d2,
         d = d1 ++ e :: d2 →
         product_of e = Some "_SourceKitLSP" →
         child_ok w (st_trace st ++ d1 ++ [e]) = false →
         "sourcekit-lsp" ∉ omap product_of d)
    ∧ (run.1 = Ok tt → builds_ok w (st_trace st) d = true)
    ∧ (run.1 ≠ Ok tt →
       (∃ d1 e,
          d = d1 ++ [e] ∧ is_Some (product_of e)
          ∧ child_ok w (st_trace st ++ d) = false)
       ∨ (∃ d1 d2,
            d = d1 ++ d2
            ∧ builds_ok w (st_trace st) d1 = true
            ∧ omap product_of d2 = []
            ∧ assembly_fails w se (st_args st) (st_trace st ++ d1) d2)).
Proof.
  intros Ha run.
  assert (run = for_each products (λ p, build_single_product w p se) st) as Hrun.
  { unfold run, handle_invocation, bind, get_args. cbn beta iota.
    rewrite Ha. reflexivity. }
  destruct (for_each_builds w se products st) as (d & Hd & Hok & Hfail).
  pose proof (for_each_builds_progress w se (st_args st) products st eq_refl)
    as Hprog.
  cbv zeta in Hprog.
  rewrite <- Hrun in Hd, Hok, Hfail, Hprog. clearbody run.
  assert (∀ d1 e d2,
            d = d1 ++ e :: d2 →
            is_Some (product_of e) →
            child_ok w (st_trace st ++ d1 ++ [e]) = false →
            d2 = [] ∧ run.1 ≠ Ok tt) as Hff.
  { intros d1 e d2 Hsplit Hp Hc.
    destruct (result_ok_dec run.1) as [Hr | Hr].
    - destruct (Hok Hr) as [_ Hb]. rewrite Hsplit in Hb.
      pose proof (builds_ok_inv _ _ _ _ _ Hb Hp). congruence.
    - destruct (Hfail Hr) as (d0 & dl & k & Hdd & Hb & Hl & _).
      destruct dl as [| x [| ? ?]]; simpl in Hl; [| | lia].
      + rewrite app_nil_r in Hdd. subst d0. rewrite Hsplit in Hb.
        pose proof (builds_ok_inv _ _ _ _ _ Hb Hp). congruence.
      + rewrite Hsplit in Hdd.
        destruct (snoc_split _ _ _ _ _ Hdd) as [-> | [d2' ->]]; [done |].
        pose proof (builds_ok_inv _ _ _ _ _ Hb Hp). congruence. }
  assert (∃ k, omap product_of d = take k products) as Hpre.
  { destruct (result_ok_dec run.1) as [Hr | Hr].
    - exists 3%nat. apply Hok, Hr.
    - destruct (Hfail Hr) as (_ & _ & k & _ & _ & _ & Hk). eauto. }
  exists d.
  split; [exact Hd |]. split; [exact Hpre |].
  split; [intros Hr; apply Hok, Hr |]. split; [exact Hff |].
  split; [| split; [intros Hr; apply Hok, Hr |]].
  - intros d1 e d2 Hsplit Hp Hc.
    destruct (Hff d1 e d2 Hsplit (mk_is_Some _ _ Hp) Hc) as [-> _].
    destruct Hpre as [k Hk]. rewrite Hk.
    rewrite Hsplit, omap_app in Hk. simpl in Hk. rewrite Hp in Hk.
    apply (f_equal last) in Hk. rewrite last_snoc in Hk.
    destruct k as [| [| [| [| k]]]]; simpl in Hk; try discriminate Hk.
    simpl. intros Hin. apply list_elem_of_In in Hin.
    destruct Hin as [Hin | [Hin | []]]; discriminate Hin.
  - intros Hr. destruct (Hprog Hr) as (d' & Hd' & Hcase).
    rewrite Hd in Hd'. apply app_inv_head in Hd'. subst d'. exact Hcase.
Qed.

Lemma build_products_in_order_fail_fast_witness :
  ∃ d k,
    st_trace
      (handle_invocation (Sample.world "Linux" second_product_fails)
         "/tc/bin/swift" (init (Sample.ns "build"))).2
    = [] ++ d
    ∧ omap product_of d = take k products.
Proof.
  destruct (build_products_in_order_fail_fast
              (Sample.world "Linux" second_product_fails)
              "/tc/bin/swift" (init (Sample.ns "build")) eq_refl)
    as (d & Hd & [k Hk] & _).
  exists d, k. split; [exact Hd | exact Hk].
Defined.

(** The run of C3's example: the second product fails, the third is not
    started. *)
Example build_second_product_fails :
  let run :=
    handle_invocation (Sample.world "Linux" second_product_fails)
      "/tc/bin/swift" (init (Sample.ns "build")) in
  omap product_of (st_trace run.2) = ["SourceKitLSPPackageTests"; "_SourceKitLSP"]
  ∧ exit_status run.1 = 1.
Proof. vm_compute. split; reflexivity. Qed.

(* ------------------------------------------------------------------------ *)
(** ** The sanitizer loop of [main] *)

Lemma handle_invocation_fields w se st r st1 :
  handle_invocation w se st = (r, st1) →
  action (st_args st1) = action (st_args st)
  ∧ build_path (st_args st1) = build_path (st_args st)
  ∧ sanitize (st_args st1) = sanitize (st_args st)
  ∧ sanitize_all (st_args st1) = sanitize_all (st_args st).
Proof.
  intros H. pose proof (frames_handle_invocation w se st) as Hfr.
  rewrite H in Hfr. apply erase_fields in Hfr.
  destruct Hfr as (? & _ & _ & ? & _ & ? & ? & _). auto.
Qed.

(** A run with [--sanitize-all] that returns is the action on the parsed
    record, then the address pass, then the thread pass, then, off Linux,
    the undefined pass. *)
Lemma main_sanitize_all_ok w ns st' :
  sanitize_all ns = true →
  main w (init ns) = (Ok tt, st') →
  let p := parsed w ns in
  let se := swift_exec_of p in
  let base := build_path p in
  truthy_list (sanitize ns) = false
  ∧ ∃ s0 s1 s2,
      handle_invocation w se (mkState p []) = (Ok tt, s0)
      ∧ sanitizer_pass w se "address" (PosixPath.join base ["test-asan"])
          "asan" s0 s1
      ∧ sanitizer_pass w se "thread" (PosixPath.join base ["test-tsan"])
          "tsan" s1 s2
      ∧ (if is_linux w then st' = s2
         else sanitizer_pass w se "undefined"
                (PosixPath.join base ["test-ubsan"]) "ubsan" s2 st').
Proof.
  intros Hall Hmain p se base.
  assert (truthy_list (sanitize ns) = false) as Ht.
  { destruct (truthy_list (sanitize ns)) eqn:Ht; [| reflexivity].
    exfalso. revert Hmain.
    unfold main, parse_args, bind, get_args, fatal_error, bind, emit, sys_exit,
      init.
    cbn [st_args st_trace]. rewrite Ht, Hall. discriminate. }
  split; [exact Ht |].
  unfold main, bind in Hmain.
  rewrite (parse_args_ok w (init ns)) in Hmain
    by (cbn [init st_args]; rewrite Ht; reflexivity).
  unfold get_args, print, emit, modify_args, ret in Hmain.
  cbn [init st_args st_trace] in Hmain.
  fold (parsed w ns) in Hmain. fold p in Hmain.
  fold (swift_exec_of p) in Hmain. fold se in Hmain.
  destruct (handle_invocation w se (mkState p [])) as [[[] | c | e] s0] eqn:H0;
    [| discriminate | discriminate].
  destruct (handle_invocation_fields _ _ _ _ _ H0) as (Ha0 & Hb0 & _ & Hs0).
  cbn [st_args] in Ha0, Hb0, Hs0.
  assert (sanitize_all p = true) as Hallp by exact Hall.
  rewrite Hs0, Hallp, Hb0 in Hmain. fold base in Hmain.
  exists s0.
  destruct (handle_invocation w se
              (pass_state "address" (PosixPath.join base ["test-asan"]) "asan" s0))
    as [[[] | c | e] s1] eqn:H1;
    unfold pass_state in H1; cbn [st_args st_trace] in H1;
    change (" sourcekit-lsp with " +:+ "asan" +:+ " ===")
      with " sourcekit-lsp with asan ===" in H1;
    rewrite H1 in Hmain; [| discriminate | discriminate].
  exists s1.
  destruct (handle_invocation w se
              (pass_state "thread" (PosixPath.join base ["test-tsan"]) "tsan" s1))
    as [[[] | c | e] s2] eqn:H2;
    unfold pass_state in H2; cbn [st_args st_trace] in H2;
    change (" sourcekit-lsp with " +:+ "tsan" +:+ " ===")
      with " sourcekit-lsp with tsan ===" in H2;
    rewrite H2 in Hmain; [| discriminate | discriminate].
  exists s2.
  split; [reflexivity |].
  split; [exact H1 |]. split; [exact H2 |].
  destruct (is_linux w); cbn [negb] in Hmain.
  - injection Hmain as <-. reflexivity.
  - exact Hmain.
Qed.

(* ------------------------------------------------------------------------ *)
(** ** The trace only grows *)

Create HintDb appends.

Lemma appends_ret {A} (a : A) : appends (ret a).
Proof. intros st; exists []; simpl; by rewrite app_nil_r. Qed.

Lemma appends_raise {A} (e : exn) : appends (@raise A e).
Proof. intros st; exists []; simpl; by rewrite app_nil_r. Qed.

Lemma appends_sys_exit {A} (c : Z) : appends (@sys_exit A c).
Proof. intros st; exists []; simpl; by rewrite app_nil_r. Qed.

Lemma appends_get_args : appends get_args.
Proof. intros st; exists []; simpl; by rewrite app_nil_r. Qed.

Lemma appends_modify_args f : appends (modify_args f).
Proof. intros st; exists []; simpl; by rewrite app_nil_r. Qed.

Lemma appends_emit (e : event) : appends (emit e).
Proof. intros st; exists [e]; reflexivity. Qed.

Lemma appends_bind {A B} (m : M A) (k : A → M B) :
  appends m → (∀ a, appends (k a)) → appends (bind m k).
Proof.
  intros Hm Hk st. unfold bind.
  destruct (Hm st) as [d Hd].
  destruct (m st) as [[a | c | e] st1]; simpl in *; eauto.
  destruct (Hk a st1) as [d' Hd']. exists (d ++ d').
  rewrite Hd', Hd, app_assoc. reflexivity.
Qed.

Lemma appends_try_except {A} (m : M A) (h : exn → M A) :
  appends m → (∀ e, appends (h e)) → appends (try_except m h).
Proof.
  intros Hm Hh st. unfold try_except.
  destruct (Hm st) as [d Hd].
  destruct (m st) as [[a | c | e] st1]; simpl in *; eauto.
  destruct (Hh e st1) as [d' Hd']. exists (d ++ d').
  rewrite Hd', Hd, app_assoc. reflexivity.
Qed.

Lemma appends_if {A} (b : bool) (m1 m2 : M A) :
  appends m1 → appends m2 → appends (if b then m1 else m2).
Proof. destruct b; trivial. Qed.

Lemma appends_lift_exn {A} (r : exn + A) : appends (lift_exn r).
Proof. destruct r; [apply appends_raise | apply appends_ret]. Qed.

Lemma appends_for_each {A} (l : list A) (body : A → M unit) :
  (∀ x, appends (body x)) → appends (for_each l body).
Proof.
  intros Hb. induction l as [| x l IH]; simpl.
  - apply appends_ret.
  - apply appends_bind; auto.
Qed.

Lemma appends_popen w cmd env : appends (popen w cmd env).
Proof.
  unfold popen. destruct (all_str cmd) as [c |]; [| apply appends_raise].
  intros st. exists [Spawn c env]. simpl.
  destruct (run_process w _); reflexivity.
Qed.

#[local] Hint Resolve appends_ret appends_raise appends_sys_exit
  appends_get_args appends_modify_args appends_emit appends_lift_exn
  appends_popen : appends.
#[local] Hint Extern 2 (appends (bind _ _)) =>
  apply appends_bind; [| intros ?] : appends.
#[local] Hint Extern 2 (appends (try_except _ _)) =>
  apply appends_try_except; [| intros ?] : appends.
#[local] Hint Extern 2 (appends (for_each _ _)) =>
  apply appends_for_each; intros ? : appends.
#[local] Hint Extern 3 (appends (if _ then _ else _)) =>
  apply appends_if : appends.
#[local] Hint Extern 3 (appends (match ?x with _ => _ end)) =>
  destruct x : appends.

Ltac appends_tac := repeat (intros; simpl; auto 20 with appends).

Lemma appends_check_call w cmd env v : appends (check_call w cmd env v).
Proof.
  unfold check_call, print_cmd, print, subprocess_check_call. appends_tac.
Qed.

Lemma appends_check_output w cmd env :
  appends (subprocess_check_output w cmd env).
Proof. unfold subprocess_check_output. appends_tac. Qed.

Lemma appends_fatal_error {A} (m : string) : appends (@fatal_error A m).
Proof. unfold fatal_error. appends_tac. Qed.

#[local] Hint Resolve appends_check_call appends_check_output
  appends_fatal_error : appends.

Lemma appends_get_build_target w se : appends (get_build_target w se).
Proof. unfold get_build_target. appends_tac. Qed.

#[local] Hint Resolve appends_get_build_target : appends.

Lemma appends_get_swiftpm_options w se : appends (get_swiftpm_options w se).
Proof. unfold get_swiftpm_options, print. appends_tac. Qed.

Lemma appends_get_swiftpm_environment_variables w se :
  appends (get_swiftpm_environment_variables w se).
Proof. unfold get_swiftpm_environment_variables. appends_tac. Qed.

#[local] Hint Resolve appends_get_swiftpm_options
  appends_get_swiftpm_environment_variables : appends.

Lemma appends_handle_invocation w se : appends (handle_invocation w se).
Proof.
  unfold handle_invocation, build_single_product, run_tests, install,
    install_binary, swiftpm_bin_path, print_cmd, print.
  appends_tac.
Qed.

Lemma sanitizer_pass_trace w se san dir name before after :
  sanitizer_pass w se san dir name before after →
  ∃ d,
    st_trace after
    = st_trace before
        ++ Stdout ("=== " +:+ action (st_args before)
                     +:+ " sourcekit-lsp with " +:+ name +:+ " ===") :: d.
Proof.
  unfold sanitizer_pass. intros H.
  destruct (appends_handle_invocation w se (pass_state san dir name before))
    as [d Hd].
  rewrite H in Hd. simpl in Hd. exists d.
  rewrite Hd, <- app_assoc. reflexivity.
Qed.

Lemma sanitizer_pass_fields w se san dir name before after :
  sanitizer_pass w se san dir name before after →
  action (st_args after) = action (st_args before)
  ∧ build_path (st_args after) = dir
  ∧ sanitize (st_args after) = Some [san].
Proof.
  unfold sanitizer_pass. intros H.
  apply handle_invocation_fields in H. simpl in H.
  destruct H as (? & ? & ? & _). auto.
Qed.

(* ------------------------------------------------------------------------ *)
(** ** Subdirectories of the base build path *)

Lemma join_subdir (base name : string) :
  PosixPath.isabs name = false →
  ∃ sep, (sep = "" ∨ sep = "/")
         ∧ PosixPath.join base [name] = base +:+ sep +:+ name.
Proof.
  intros Hn. unfold PosixPath.join, PosixPath.join2. simpl. rewrite Hn.
  destruct (negb (PyStr.truthy base) || PyStr.endswith_char "/" base).
  - exists "". split; [left; reflexivity | reflexivity].
  - exists "/". split; [right; reflexivity | reflexivity].
Qed.

Lemma join_subdir_inj (base a b : string) :
  PosixPath.isabs a = false → PosixPath.isabs b = false →
  PosixPath.join base [a] = PosixPath.join base [b] → a = b.
Proof.
  intros Ha Hb. unfold PosixPath.join, PosixPath.join2. simpl.
  rewrite Ha, Hb.
  destruct (negb (PyStr.truthy base) || PyStr.endswith_char "/" base);
    intros H; apply String.app_inj in H; [exact H |].
  injection H as H. exact H.
Qed.

Lemma sanitizer_dirs_distinct (base : string) :
  PosixPath.join base ["test-asan"] ≠ PosixPath.join base ["test-tsan"]
  ∧ PosixPath.join base ["test-asan"] ≠ PosixPath.join base ["test-ubsan"]
  ∧ PosixPath.join base ["test-tsan"] ≠ PosixPath.join base ["test-ubsan"].
Proof.
  repeat split; intros H; apply join_subdir_inj in H; try reflexivity;
    discriminate H.
Qed.

(** C1.  A run with [--sanitize-all] that returns has gone, after the
    action on the parsed record, through the address pass, then the
    thread pass, then (off Linux only) the undefined pass, each a
    complete run of the action on the record with [sanitize] set to that
    one sanitizer and [build_path] set to [test-asan], [test-tsan],
    [test-ubsan] under the base build path; the three directories differ.
    On Linux the run ends with the thread pass: two sanitizer passes. *)
Theorem sanitizer_passes_in_order w ns st' :
  sanitize_all ns = true →
  main w (init ns) = (Ok tt, st') →
  let p := parsed w ns in
  let se := swift_exec_of p in
  let base := build_path p in
  let asan := PosixPath.join base ["test-asan"] in
  let tsan := PosixPath.join base ["test-tsan"] in
  let ubsan := PosixPath.join base ["test-ubsan"] in
  (∃ s0 s1 s2,
     handle_invocation w se (mkState p []) = (Ok tt, s0)
     ∧ sanitizer_pass w se "address" asan "asan" s0 s1
     ∧ sanitizer_pass w se "thread" tsan "tsan" s1 s2
     ∧ (is_linux w = true → st' = s2)
     ∧ (is_linux w = false →
        sanitizer_pass w se "undefined" ubsan "ubsan" s2 st'))
  ∧ (∃ sep, (sep = "" ∨ sep = "/")
            ∧ asan = base +:+ sep +:+ "test-asan"
            ∧ tsan = base +:+ sep +:+ "test-tsan"
            ∧ ubsan = base +:+ sep +:+ "test-ubsan")
  ∧ asan ≠ tsan ∧ asan ≠ ubsan ∧ tsan ≠ ubsan.
Proof.
  intros Hall Hmain p se base asan tsan ubsan.
  destruct (main_sanitize_all_ok w ns st' Hall Hmain)
    as (_ & s0 & s1 & s2 & H0 & H1 & H2 & H3).
  fold p se base in H0, H1, H2, H3.
  split; [| split].
  - exists s0, s1, s2. repeat split; trivial.
    + intros Hl. rewrite Hl in H3. exact H3.
    + intros Hl. rewrite Hl in H3. exact H3.
  - unfold asan, tsan, ubsan, PosixPath.join, PosixPath.join2. simpl.
    destruct (negb (PyStr.truthy base) || PyStr.endswith_char "/" base).
    + exists "". auto.
    + exists "/". auto.
  - apply sanitizer_dirs_distinct.
Qed.

Lemma sanitizer_passes_in_order_witness :
  ∃ s0 s1 s2,
    handle_invocation Sample.linux "/tc/bin/swift"
      (mkState (parsed Sample.linux (Sample.ns_all "build")) [])
    = (Ok tt, s0)
    ∧ sanitizer_pass Sample.linux "/tc/bin/swift" "address"
        "/work/.build/test-asan" "asan" s0 s1
    ∧ sanitizer_pass Sample.linux "/tc/bin/swift" "thread"
        "/work/.build/test-tsan" "tsan" s1 s2
    ∧ (main Sample.linux (init (Sample.ns_all "build"))).2 = s2.
Proof.
  destruct (sanitizer_passes_in_order Sample.linux (Sample.ns_all "build")
              (main Sample.linux (init (Sample.ns_all "build"))).2)
    as ((s0 & s1 & s2 & H0 & H1 & H2 & H3 & _) & _).
  - reflexivity.
  - vm_compute. reflexivity.
  - exists s0, s1, s2. repeat split; trivial. apply H3. reflexivity.
Defined.

(** C10.  In a run with [--sanitize-all] that returns, the action is
    first run once on the parsed record, whose sanitizer list is empty
    and whose build path is the base build path; that run is over before
    the banner of the first sanitizer pass is printed.  On Linux the
    whole trace is that of three runs of the action: the unsanitized one,
    the address pass and the thread pass. *)
Theorem unsanitized_run_comes_first w ns st' :
  sanitize_all ns = true →
  main w (init ns) = (Ok tt, st') →
  let p := parsed w ns in
  let se := swift_exec_of p in
  let base := PosixPath.abspath (getcwd w) (build_path ns) in
  truthy_list (sanitize p) = false
  ∧ build_path p = base
  ∧ ∃ s0 rest,
      handle_invocation w se (mkState p []) = (Ok tt, s0)
      ∧ st_trace st'
        = st_trace s0
            ++ Stdout ("=== " +:+ action ns +:+ " sourcekit-lsp with asan ===")
            :: rest
      ∧ (is_linux w = true →
         ∃ s1 d1 d2,
           sanitizer_pass w se "address" (PosixPath.join base ["test-asan"])
             "asan" s0 s1
           ∧ sanitizer_pass w se "thread" (PosixPath.join base ["test-tsan"])
               "tsan" s1 st'
           ∧ st_trace st'
             = st_trace s0
                 ++ Stdout ("=== " +:+ action ns +:+ " sourcekit-lsp with asan ===")
                 :: d1
                 ++ Stdout ("=== " +:+ action ns +:+ " sourcekit-lsp with tsan ===")
                 :: d2).
Proof.
  intros Hall Hmain p se base.
  destruct (main_sanitize_all_ok w ns st' Hall Hmain)
    as (Ht & s0 & s1 & s2 & H0 & H1 & H2 & H3).
  fold p se in H0, H1, H2, H3.
  change (build_path (parsed w ns)) with base in H1, H2, H3.
  split; [exact Ht |]. split; [reflexivity |].
  destruct (handle_invocation_fields _ _ _ _ _ H0) as (Ha0 & _).
  change (action (st_args s0) = action ns) in Ha0.
  destruct (sanitizer_pass_trace _ _ _ _ _ _ _ H1) as [d1 Hd1].
  destruct (sanitizer_pass_trace _ _ _ _ _ _ _ H2) as [d2 Hd2].
  destruct (sanitizer_pass_fields _ _ _ _ _ _ _ H1) as (Ha1 & _).
  rewrite Ha0 in Hd1. rewrite Ha1, Ha0 in Hd2.
  assert (st_trace s2
          = st_trace s0
              ++ Stdout ("=== " +:+ action ns +:+ " sourcekit-lsp with asan ===")
              :: d1
              ++ Stdout ("=== " +:+ action ns +:+ " sourcekit-lsp with tsan ===")
              :: d2) as Hs2.
  { rewrite Hd2, Hd1, <- app_assoc. reflexivity. }
  destruct (is_linux w) eqn:Hl.
  - subst st'. exists s0. eexists. split; [exact H0 |].
    split; [exact Hs2 |]. intros _. exists s1, d1, d2. auto.
  - destruct (sanitizer_pass_trace _ _ _ _ _ _ _ H3) as [d3 Hd3].
    exists s0. eexists. split; [exact H0 |]. split; [| discriminate].
    rewrite Hd3, Hs2, <- app_assoc. reflexivity.
Qed.

Lemma unsanitized_run_comes_first_witness :
  ∃ s0 rest,
    handle_invocation Sample.linux "/tc/bin/swift"
      (mkState (parsed Sample.linux (Sample.ns_all "test")) [])
    = (Ok tt, s0)
    ∧ st_trace (main Sample.linux (init (Sample.ns_all "test"))).2
      = st_trace s0 ++ Stdout "=== test sourcekit-lsp with asan ===" :: rest.
Proof.
  destruct (unsanitized_run_comes_first Sample.linux (Sample.ns_all "test")
              (main Sample.linux (init (Sample.ns_all "test"))).2)
    as (_ & _ & s0 & rest & H0 & Htr & _).
  - reflexivity.
  - vm_compute. reflexivity.
  - exists s0, rest. split; [exact H0 | exact Htr].
Defined.

(** C7, as the script has it.  There is one record, and the loop assigns
    its [sanitize] and [build_path] attributes in place: when a run with
    [--sanitize-all] returns, the record that [parse_args] built holds the
    sanitizer and the subdirectory of the last pass.  Only the base build
    path is saved beforehand, so each subdirectory is taken under it. *)
Theorem sanitizer_loop_assigns_record w ns st' :
  sanitize_all ns = true →
  main w (init ns) = (Ok tt, st') →
  let base := PosixPath.abspath (getcwd w) (build_path ns) in
  sanitize (st_args st')
  = Some [if is_linux w then "thread" else "undefined"]
  ∧ build_path (st_args st')
    = PosixPath.join base [if is_linux w then "test-tsan" else "test-ubsan"]
  ∧ truthy_list (sanitize (parsed w ns)) = false
  ∧ build_path (parsed w ns) = base.
Proof.
  intros Hall Hmain base.
  destruct (main_sanitize_all_ok w ns st' Hall Hmain)
    as (Ht & s0 & s1 & s2 & H0 & H1 & H2 & H3).
  change (build_path (parsed w ns)) with base in H1, H2, H3.
  destruct (sanitizer_pass_fields _ _ _ _ _ _ _ H2) as (_ & Hb2 & Hs2).
  destruct (is_linux w).
  - subst st'. auto.
  - destruct (sanitizer_pass_fields _ _ _ _ _ _ _ H3) as (_ & Hb3 & Hs3).
    auto.
Qed.

Lemma sanitizer_loop_assigns_record_witness :
  sanitize (st_args (main Sample.darwin (init (Sample.ns_all "build"))).2)
  = Some ["undefined"].
Proof.
  apply (sanitizer_loop_assigns_record Sample.darwin (Sample.ns_all "build")
           (main Sample.darwin (init (Sample.ns_all "build"))).2).
  - reflexivity.
  - vm_compute. reflexivity.
Defined.

(** C7, as stated, fails: after
    [build --toolchain /tc --sanitize-all] on Linux, the record built from
    the command line, which had no sanitizer and the build path
    [/work/.build], holds the thread sanitizer and the build path
    [/work/.build/test-tsan]. *)
Lemma sanitizer_loop_copy_counterexample :
  let p := parsed Sample.linux (Sample.ns_all "build") in
  let run := main Sample.linux (init (Sample.ns_all "build")) in
  run.1 = Ok tt
  ∧ sanitize p = None
  ∧ build_path p = "/work/.build"
  ∧ sanitize (st_args run.2) = Some ["thread"]
  ∧ build_path (st_args run.2) = "/work/.build/test-tsan"
  ∧ erase (st_args run.2) ≠ erase p.
Proof. vm_compute. repeat split. discriminate. Qed.

(* ------------------------------------------------------------------------ *)
(** ** Path canonicalization *)

Lemma isabs_cons (p : string) :
  PosixPath.isabs p = true → ∃ r, p = String "/" r.
Proof.
  destruct p as [| c r]; [discriminate |].
  unfold PosixPath.isabs, PyStr.startswith. cbn [String.prefix].
  destruct (ascii_dec "/" c) as [<- | n]; [eauto | discriminate].
Qed.

Lemma startswith_slash (r : string) :
  PyStr.startswith "/" (String "/" r) = true.
Proof.
  unfold PyStr.startswith. cbn [String.prefix].
  destruct (ascii_dec "/" "/") as [_ | n]; [destruct r; reflexivity | done].
Qed.

Lemma split_no_separator (c : ascii) (s : string) :
  Forall (λ x, PyStr.contains c x = false) (PyStr.split c s).
Proof.
  induction s as [| d r IH]; cbn [PyStr.split].
  - repeat constructor.
  - destruct (Ascii.eqb c d) eqn:Hcd.
    + constructor; [reflexivity | exact IH].
    + destruct (PyStr.split c r) as [| h t].
      * repeat constructor. cbn [PyStr.contains]. rewrite Hcd. reflexivity.
      * inversion IH as [| ? ? Hh Ht]. constructor; [| exact Ht].
        cbn [PyStr.contains]. rewrite Hcd. exact Hh.
Qed.

Lemma norm_comps_ok (acc comps : list string) :
  Forall proper_component acc →
  Forall (λ x, PyStr.contains "/" x = false) comps →
  Forall proper_component (PosixPath.norm_comps true acc comps).
Proof.
  revert acc. induction comps as [| comp rest IH]; intros acc Hacc Hc; simpl.
  - exact Hacc.
  - inversion Hc as [| ? ? Hcomp Hrest].
    destruct (String.eqb_spec comp "") as [-> | Hne]; simpl; [auto |].
    destruct (String.eqb_spec comp ".") as [-> | Hnd]; simpl; [auto |].
    destruct (String.eqb_spec comp "..") as [-> | Hnp]; simpl.
    + destruct acc as [| last acc']; simpl; [auto |].
      destruct (String.eqb_spec last "..") as [-> | Hl].
      * inversion Hacc as [| ? ? (_ & _ & _ & Hbad) _]. done.
      * apply IH; [| exact Hrest]. inversion Hacc; assumption.
    + apply IH; [| exact Hrest]. constructor; [| exact Hacc].
      repeat split; assumption.
Qed.

Lemma normpath_abs (r : string) :
  lexically_normal (PosixPath.normpath (String "/" r)).
Proof.
  unfold PosixPath.normpath. cbn [PyStr.truthy negb].
  set (p := String "/" r).
  assert (PosixPath.initial_slashes p = "/" ∨ PosixPath.initial_slashes p = "//")
    as Hsl.
  { unfold PosixPath.initial_slashes.
    unfold p. rewrite startswith_slash.
    destruct (PyStr.startswith "//" _ && negb (PyStr.startswith "///" _));
      auto. }
  set (comps := rev (PosixPath.norm_comps _ [] (PyStr.split "/" p))).
  assert (Forall proper_component comps) as Hc.
  { unfold comps. apply Forall_rev.
    destruct Hsl as [-> | ->];
      (apply norm_comps_ok; [constructor | apply split_no_separator]). }
  exists (PosixPath.initial_slashes p), comps.
  destruct Hsl as [E | E]; rewrite E; auto.
Qed.

Lemma abspath_normal (cwd p : string) :
  PosixPath.isabs cwd = true → lexically_normal (PosixPath.abspath cwd p).
Proof.
  intros Hcwd. unfold PosixPath.abspath.
  destruct (PosixPath.isabs p) eqn:Hp.
  - destruct (isabs_cons _ Hp) as [r ->]. apply normpath_abs.
  - destruct (isabs_cons _ Hcwd) as [r ->].
    unfold PosixPath.join2. rewrite Hp.
    destruct (negb _ || _); apply normpath_abs.
Qed.

Lemma lexically_normal_isabs (p : string) :
  lexically_normal p → PosixPath.isabs p = true.
Proof.
  intros (sl & comps & [-> | ->] & -> & _); apply startswith_slash.
Qed.

(** C8, as the script has it.  When [parse_args] returns it has done
    nothing to the outside world, and the package path, the build path and
    the toolchain path of the record are [os.path.abspath] of what was
    given: absolute, and normalised as strings.  (Symbolic links are not
    looked at.) *)
Theorem parse_args_makes_paths_absolute w st st' :
  PosixPath.isabs (getcwd w) = true →
  parse_args w st = (Ok tt, st') →
  st_trace st' = st_trace st
  ∧ package_path (st_args st')
    = PosixPath.abspath (getcwd w) (package_path (st_args st))
  ∧ build_path (st_args st')
    = PosixPath.abspath (getcwd w) (build_path (st_args st))
  ∧ toolchain (st_args st')
    = PosixPath.abspath (getcwd w) (toolchain (st_args st))
  ∧ lexically_normal (package_path (st_args st'))
  ∧ lexically_normal (build_path (st_args st'))
  ∧ lexically_normal (toolchain (st_args st'))
  ∧ PosixPath.isabs (package_path (st_args st')) = true
  ∧ PosixPath.isabs (build_path (st_args st')) = true
  ∧ PosixPath.isabs (toolchain (st_args st')) = true.
Proof.
  intros Hcwd H.
  destruct (truthy_list (sanitize (st_args st)) && sanitize_all (st_args st))
    eqn:Hx.
  - exfalso. revert H.
    unfold parse_args, bind, get_args, fatal_error, bind, emit, sys_exit.
    cbn [st_args st_trace]. rewrite Hx. discriminate.
  - rewrite (parse_args_ok w st Hx) in H. injection H as <-. simpl.
    repeat split;
      auto using abspath_normal, lexically_normal_isabs.
Qed.

Lemma parse_args_makes_paths_absolute_witness :
  PosixPath.isabs
    (toolchain (st_args (parse_args Sample.linux (init (Sample.ns "build"))).2))
  = true.
Proof.
  apply (parse_args_makes_paths_absolute Sample.linux
           (init (Sample.ns "build"))
           (parse_args Sample.linux (init (Sample.ns "build"))).2).
  - reflexivity.
  - vm_compute. reflexivity.
Defined.

(** C8, as stated, fails: where [/tc] is a symbolic link,
    [build --toolchain /tc] leaves [/tc] as the toolchain path. *)
Lemma paths_not_symlink_resolved_counterexample :
  let run := parse_args linked_world (init (Sample.ns "build")) in
  run.1 = Ok tt
  ∧ toolchain (st_args run.2) = "/tc"
  ∧ is_symlink linked_world "/tc" = true
  ∧ ¬ canonical linked_world (toolchain (st_args run.2)).
Proof.
  vm_compute. repeat split.
  intros [_ H]. inversion H as [| ? ? Hl _]. discriminate Hl.
Qed.

(* ------------------------------------------------------------------------ *)
(** ** What the children are told *)

(** The options start with the package path, the build path and the
    configuration of the record, and name every requested sanitizer. *)
Lemma get_swiftpm_options_carries w se st opts st1 :
  get_swiftpm_options w se st = (Ok opts, st1) →
  ∃ rest,
    opts
    = strs ["--package-path"; package_path (st_args st);
            "--build-path"; build_path (st_args st);
            "--configuration"; configuration (st_args st)] ++ rest
    ∧ ∀ san l,
        sanitize (st_args st) = Some l → san ∈ l →
        Str ("--sanitize=" +:+ san) ∈ rest.
Proof.
  intros H.
  assert (∀ san l, san ∈ l →
            Str ("--sanitize=" +:+ san)
            ∈ strs (map (λ san, "--sanitize=" +:+ san) l)) as Hsan.
  { intros san l Hin. unfold strs. rewrite !list_elem_of_In in *.
    apply in_map, (in_map (λ san, "--sanitize=" +:+ san)), Hin. }
  revert H. unfold get_swiftpm_options, bind, get_args. cbn beta iota.
  destruct (get_build_target w se st) as [[bt | c | e] s1];
    [| discriminate | discriminate].
  unfold print, fatal_error, bind, emit, sys_exit, ret.
  destruct (sanitize (st_args st)) as [l |] eqn:Hs.
  - cbn [default].
    intros H.
    repeat match type of H with
           | context [match ?x with _ => _ end] => destruct x eqn:?
           end;
      simplify_eq;
      rewrite <- ?app_assoc; cbn [strs map app];
      eexists; (split; [reflexivity |]);
      intros san l' Hl Hin; simplify_eq;
      try match goal with
          | Hb : truthy_list (Some ?l) = false |- _ =>
              destruct l; [exfalso; inversion Hin | discriminate Hb]
          end;
      specialize (Hsan san _ Hin);
      rewrite ?elem_of_cons, ?elem_of_app; tauto.
  - intros H.
    repeat match type of H with
           | context [match ?x with _ => _ end] => destruct x eqn:?
           end;
      simplify_eq;
      rewrite <- ?app_assoc; cbn [strs map app];
      eexists; (split; [reflexivity |]); intros san l' Hl; discriminate Hl.
Qed.

(** [build --toolchain /tc --sanitize-all] on Linux, every child
    succeeding: nine product builds, three into [/work/.build] without a
    sanitizer, three into [test-asan] with address, three into [test-tsan]
    with thread. *)
Example sanitize_all_build_on_linux :
  let run := main Sample.linux (init (Sample.ns_all "build")) in
  run.1 = Ok tt
  ∧ build_lines (st_trace run.2)
    = [("SourceKitLSPPackageTests", Some "/work/.build", Some "-Xcxx");
       ("_SourceKitLSP", Some "/work/.build", Some "-Xcxx");
       ("sourcekit-lsp", Some "/work/.build", Some "-Xcxx");
       ("SourceKitLSPPackageTests", Some "/work/.build/test-asan",
        Some "--sanitize=address");
       ("_SourceKitLSP", Some "/work/.build/test-asan",
        Some "--sanitize=address");
       ("sourcekit-lsp", Some "/work/.build/test-asan",
        Some "--sanitize=address");
       ("SourceKitLSPPackageTests", Some "/work/.build/test-tsan",
        Some "--sanitize=thread");
       ("_SourceKitLSP", Some "/work/.build/test-tsan",
        Some "--sanitize=thread");
       ("sourcekit-lsp", Some "/work/.build/test-tsan",
        Some "--sanitize=thread")].
Proof. vm_compute. split; reflexivity. Qed.

(** The same off Linux ends with the undefined pass. *)
Example sanitize_all_build_on_darwin :
  let run := main Sample.darwin (init (Sample.ns_all "build")) in
  run.1 = Ok tt
  ∧ map (λ l, l.1.2) (build_lines (st_trace run.2))
    = [Some "/work/.build"; Some "/work/.build"; Some "/work/.build";
       Some "/work/.build/test-asan"; Some "/work/.build/test-asan";
       Some "/work/.build/test-asan";
       Some "/work/.build/test-tsan"; Some "/work/.build/test-tsan";
       Some "/work/.build/test-tsan";
       Some "/work/.build/test-ubsan"; Some "/work/.build/test-ubsan";
       Some "/work/.build/test-ubsan"].
Proof. vm_compute. split; reflexivity. Qed.

(* ------------------------------------------------------------------------ *)
(** ** Escaping arguments for display *)

Lemma replace_dquote_head (s : string) :
  match PyStr.replace dquote escaped_dquote s with
  | String c _ => c ≠ dquote
  | EmptyString => True
  end.
Proof.
  destruct s as [| c s]; cbn [PyStr.replace]; [trivial |].
  destruct (Ascii.eqb_spec dquote c) as [<- | Hne].
  - unfold escaped_dquote, dquote. cbn [String.append]. discriminate.
  - intros E. apply Hne. symmetry. exact E.
Qed.

Lemma replace_dquote_inj (s t : string) :
  PyStr.replace dquote escaped_dquote s = PyStr.replace dquote escaped_dquote t →
  s = t.
Proof.
  revert t. induction s as [| c s IH]; intros [| d t]; cbn [PyStr.replace].
  - reflexivity.
  - destruct (Ascii.eqb dquote d); discriminate.
  - destruct (Ascii.eqb dquote c); discriminate.
  - destruct (Ascii.eqb_spec dquote c) as [<- | Hc],
      (Ascii.eqb_spec dquote d) as [<- | Hd];
      unfold escaped_dquote; cbn [String.append]; intros H.
    + injection H as H. f_equal. apply IH, H.
    + injection H as _ H. pose proof (replace_dquote_head t) as Ht.
      unfold escaped_dquote in Ht. rewrite <- H in Ht. done.
    + injection H as _ H. pose proof (replace_dquote_head s) as Hs.
      unfold escaped_dquote in Hs. rewrite H in Hs. done.
    + injection H as -> H. f_equal. apply IH, H.
Qed.

Lemma append_char_inj (x y : string) (c : ascii) :
  x +:+ String c EmptyString = y +:+ String c EmptyString → x = y.
Proof.
  revert y. induction x as [| a x IH]; intros [| b y];
    cbn [String.append]; intros H.
  - reflexivity.
  - injection H as _ H. destruct y; discriminate H.
  - injection H as _ H. destruct x; discriminate H.
  - injection H as -> H. f_equal. apply IH, H.
Qed.

Lemma contains_head (c : ascii) (s : string) :
  PyStr.contains c (String c s) = true.
Proof. cbn [PyStr.contains]. rewrite Ascii.eqb_refl. reflexivity. Qed.

(** Two arguments that are displayed in the same way are the same
    argument: quoting is unambiguous. *)
Theorem escapeCmdArg_injective (a b : arg) :
  escapeCmdArg a = escapeCmdArg b → a = b.
Proof.
  destruct a as [s |], b as [t |]; cbn [escapeCmdArg]; try reflexivity.
  - destruct (PyStr.contains dquote s || PyStr.contains " " s) eqn:Hs,
      (PyStr.contains dquote t || PyStr.contains " " t) eqn:Ht;
      intros H; injection H as H.
    + apply append_char_inj, replace_dquote_inj in H. congruence.
    + subst t. rewrite contains_head in Ht. discriminate Ht.
    + subst s. rewrite contains_head in Hs. discriminate Hs.
    + congruence.
  - destruct (_ || _); discriminate.
  - destruct (_ || _); discriminate.
Qed.

Lemma append_cons (a : ascii) (x y : string) :
  String a x +:+ y = String a (x +:+ y).
Proof. reflexivity. Qed.

Lemma length_append (x y : string) :
  String.length (x +:+ y) = (String.length x + String.length y)%nat.
Proof.
  induction x as [| a x IH]; [reflexivity |].
  rewrite append_cons. cbn [String.length]. rewrite IH. reflexivity.
Qed.

Lemma replace_dquote_length (s : string) :
  (String.length s
   ≤ String.length (PyStr.replace dquote escaped_dquote s))%nat.
Proof.
  induction s as [| c s IH]; cbn [PyStr.replace String.length]; [lia |].
  destruct (Ascii.eqb dquote c).
  - rewrite length_append. unfold escaped_dquote at 1.
    cbn [String.length]. lia.
  - cbn [String.length]. lia.
Qed.

(** An argument is displayed as it is exactly when it holds neither a
    double quote nor a space; otherwise it is displayed between double
    quotes. *)
Theorem escapeCmdArg_plain_iff (s : string) :
  escapeCmdArg (Str s) = inr s
  ↔ PyStr.contains dquote s = false ∧ PyStr.contains " " s = false.
Proof.
  cbn [escapeCmdArg]. split.
  - destruct (PyStr.contains dquote s || PyStr.contains " " s) eqn:H.
    + intros E. injection E as E. exfalso.
      apply (f_equal String.length) in E. cbn [String.length] in E.
      rewrite length_append in E. cbn [String.length] in E.
      pose proof (replace_dquote_length s). lia.
    + intros _. apply orb_false_elim in H. exact H.
  - intros [-> ->]. reflexivity.
Qed.

Lemma escapeCmdArg_injective_witness : Str "a b" = Str "a b".
Proof.
  apply (escapeCmdArg_injective (Str "a b") (Str "a b")). reflexivity.
Defined.

(* ------------------------------------------------------------------------ *)
(** ** How the target resolver ends *)

(** No exception escapes [get_build_target].  It returns after having
    started the introspection child and nothing else; or, off Darwin only,
    it ends in [SystemExit(1)] after the child and one line on stderr,
    which is the text of the exception that its [try] block raised.  On
    Darwin it always returns. *)
Theorem get_build_target_never_raises w se st :
  let run := get_build_target w se st in
  match run.1 with
  | Ok _ => st_trace run.2 = st_trace st ++ [Spawn (target_info_cmd se) None]
  | Exit code =>
      code = 1 ∧ is_darwin w = false
      ∧ ∃ e,
          resolver_raises w se (st_trace st) e
          ∧ st_trace run.2
            = st_trace st
                ++ [Spawn (target_info_cmd se) None; Stderr (str_exn w e)]
  | Raise _ => False
  end.
Proof.
  unfold get_build_target, try_except, subprocess_check_output, bind, popen,
    fatal_error, bind, emit, sys_exit, modify_args, lift_exn, raise, ret,
    resolver_raises.
  simpl.
  destruct (is_darwin w) eqn:Hd;
    (destruct (run_process w _) as [rc out | rc |]; simpl;
     [destruct (rc =? 0); simpl;
      [destruct (json_loads w (PyStr.strip out)) as [info |]; simpl;
       [destruct (subscript info "target") as [e | target]; simpl;
        [| match goal with
           | |- context [subscript target ?k] =>
               destruct (subscript target k) as [e | v] eqn:Hv
           end; simpl] |] |] | |]);
    rewrite <- ?app_assoc; simpl; eauto 10.
Qed.

(** Off Darwin a returned triple is what the toolchain reported: the
    child exited with status 0, its output (stripped) was parsed, the
    description holds [target], that holds [triple], and this is the value
    returned; the description is then stored on the record. *)
Theorem get_build_target_reports_triple w se st bt st1 :
  is_darwin w = false →
  get_build_target w se st = (Ok bt, st1) →
  ∃ out info target,
    run_process w (st_trace st ++ [Spawn (target_info_cmd se) None])
    = Exited 0 out
    ∧ json_loads w (PyStr.strip out) = Some info
    ∧ subscript info "target" = inr target
    ∧ subscript target "triple" = inr bt
    ∧ target_info (st_args st1) = Some info.
Proof.
  intros Hd.
  unfold get_build_target, try_except, subprocess_check_output, bind, popen,
    fatal_error, bind, emit, sys_exit, modify_args, lift_exn, raise, ret.
  simpl. rewrite Hd.
  destruct (run_process w _) as [rc out | rc |] eqn:Hr; simpl;
    [| discriminate | discriminate].
  destruct (Z.eqb_spec rc 0) as [-> | Hrc]; simpl; [| discriminate].
  destruct (json_loads w (PyStr.strip out)) as [info |] eqn:Hj; simpl;
    [| discriminate].
  destruct (subscript info "target") as [e | target] eqn:Ht; simpl;
    [discriminate |].
  destruct (subscript target "triple") as [e | v] eqn:Hv; simpl;
    [discriminate |].
  intros H. injection H as <- <-. simpl. eauto 10.
Qed.

Lemma get_build_target_reports_triple_witness :
  ∃ out info target,
    run_process Sample.linux [Spawn (target_info_cmd "/tc/bin/swift") None]
    = Exited 0 out
    ∧ json_loads Sample.linux (PyStr.strip out) = Some info
    ∧ subscript info "target" = inr target
    ∧ subscript target "triple" = inr (JStr "x86_64-unknown-linux-gnu")
    ∧ target_info
        (st_args (get_build_target Sample.linux "/tc/bin/swift"
                    (init (Sample.ns "build"))).2)
      = Some info.
Proof.
  apply (get_build_target_reports_triple Sample.linux "/tc/bin/swift"
           (init (Sample.ns "build"))).
  - reflexivity.
  - vm_compute. reflexivity.
Defined.

(** On Darwin the resolver falls back to [x86_64-apple-macosx] whenever
    it cannot read the triple: the child does not exit with status 0 and
    decodable output, its output is not JSON, or a key is missing.  When
    the output was parsed, the description is stored on the record even
    though the lookup failed; otherwise the record is left as it was. *)
Theorem get_build_target_darwin_fallback w se st :
  is_darwin w = true →
  let run := get_build_target w se st in
  let tr := st_trace st ++ [Spawn (target_info_cmd se) None] in
  st_trace run.2 = tr
  ∧ ((∀ out, run_process w tr ≠ Exited 0 out) →
     run = (Ok (JStr "x86_64-apple-macosx"), mkState (st_args st) tr))
  ∧ (∀ out,
       run_process w tr = Exited 0 out →
       json_loads w (PyStr.strip out) = None →
       run = (Ok (JStr "x86_64-apple-macosx"), mkState (st_args st) tr))
  ∧ (∀ out info,
       run_process w tr = Exited 0 out →
       json_loads w (PyStr.strip out) = Some info →
       target_info (st_args run.2) = Some info
       ∧ ((∀ target v,
             subscript info "target" = inr target →
             subscript target "unversionedTriple" = inr v → False) →
          run.1 = Ok (JStr "x86_64-apple-macosx"))).
Proof.
  intros Hd.
  unfold get_build_target, try_except, subprocess_check_output, bind, popen,
    fatal_error, bind, emit, sys_exit, modify_args, lift_exn, raise, ret.
  simpl. rewrite Hd.
  destruct (run_process w _) as [rc out | rc |] eqn:Hr; simpl;
    [destruct (Z.eqb_spec rc 0) as [-> | Hrc]; simpl;
     [destruct (json_loads w (PyStr.strip out)) as [info |] eqn:Hj; simpl;
      [destruct (subscript info "target") as [e | target] eqn:Ht; simpl;
       [| destruct (subscript target "unversionedTriple")
            as [e | v] eqn:Hv; simpl] |] |] | |];
    (split; [reflexivity |]);
    (split;
     [intros Hno; try reflexivity; exfalso; eapply Hno; reflexivity |]);
    (split; [intros; simplify_eq; try reflexivity; congruence |]);
    intros out' info' E Hj'; simplify_eq; try congruence;
    (split; [congruence |]); intros Hno; try reflexivity.
  exfalso. eapply Hno; eassumption.
Qed.

Lemma get_build_target_darwin_fallback_witness :
  (get_build_target (Sample.world "Darwin" (λ _, Undecodable 0))
     "/tc/bin/swift" (init (Sample.ns "build"))).1
  = Ok (JStr "x86_64-apple-macosx").
Proof.
  destruct (get_build_target_darwin_fallback
              (Sample.world "Darwin" (λ _, Undecodable 0)) "/tc/bin/swift"
              (init (Sample.ns "build")) eq_refl)
    as (_ & H & _).
  rewrite H; [reflexivity | discriminate].
Defined.

(* ------------------------------------------------------------------------ *)
(** ** The environment of the children *)

(** Assembling the environment always returns, does nothing to the
    outside world or to the record, and the three variables that point
    the children at the toolchain are set whatever the process
    environment held for them. *)
Theorem environment_points_at_toolchain w se st :
  ∃ env,
    get_swiftpm_environment_variables w se st = (Ok env, st)
    ∧ env !! "SOURCEKIT_TOOLCHAIN_PATH" = Some (toolchain (st_args st))
    ∧ env !! "INDEXSTOREDB_TOOLCHAIN_BIN_PATH" = Some (toolchain (st_args st))
    ∧ env !! "SWIFT_EXEC" = Some (se +:+ "c").
Proof.
  unfold get_swiftpm_environment_variables, bind, get_args, ret.
  cbn beta iota zeta.
  eexists. split; [reflexivity |].
  repeat split; repeat case_match; simplify_map_eq; reflexivity.
Qed.

(** A variable of the process environment that the function does not
    assign reaches the children unchanged (and one that is absent stays
    absent). *)
Theorem environment_inherited w se st :
  ∃ env,
    get_swiftpm_environment_variables w se st = (Ok env, st)
    ∧ ∀ k, k ∉ assigned_variables → env !! k = environ w !! k.
Proof.
  unfold get_swiftpm_environment_variables, bind, get_args, ret.
  cbn beta iota zeta.
  eexists. split; [reflexivity |]. intros k Hk.
  unfold assigned_variables in Hk.
  rewrite !not_elem_of_cons in Hk.
  destruct Hk as (? & ? & ? & ? & ? & ? & ? & ? & ? & _).
  repeat case_match; simplify_map_eq; reflexivity.
Qed.

(** The runtime options of a sanitizer are set exactly when that
    sanitizer is requested; otherwise the variable is as the process
    environment has it. *)
Theorem environment_sanitizer_options w se st :
  ∃ env,
    get_swiftpm_environment_variables w se st = (Ok env, st)
    ∧ env !! "ASAN_OPTIONS"
      = (if sanitize_has "address" (st_args st) then Some "detect_leaks=false"
         else environ w !! "ASAN_OPTIONS")
    ∧ env !! "TSAN_OPTIONS"
      = (if sanitize_has "thread" (st_args st) then Some "halt_on_error=true"
         else environ w !! "TSAN_OPTIONS")
    ∧ env !! "UBSAN_OPTIONS"
      = (if sanitize_has "undefined" (st_args st)
         then Some ("halt_on_error=true,suppressions="
                      +:+ PosixPath.join (package_path (st_args st))
                            ["Utilities"; "ubsan_supressions.supp"])
         else environ w !! "UBSAN_OPTIONS").
Proof.
  unfold get_swiftpm_environment_variables, bind, get_args, ret.
  cbn beta iota zeta.
  eexists. split; [reflexivity |].
  repeat split; repeat case_match; simplify_map_eq; reflexivity.
Qed.

(** The markers: local dependencies unless [--no-local-deps]; the ninja
    binary when one is given (and not empty); long tests for the test
    action unless [--skip-long-tests].  Otherwise each variable is as the
    process environment has it. *)
Theorem environment_markers w se st :
  ∃ env,
    get_swiftpm_environment_variables w se st = (Ok env, st)
    ∧ env !! "SWIFTCI_USE_LOCAL_DEPS"
      = (if no_local_deps (st_args st)
         then environ w !! "SWIFTCI_USE_LOCAL_DEPS"
         else Some "1")
    ∧ env !! "NINJA_BIN"
      = (if truthy_str (ninja_bin (st_args st)) then ninja_bin (st_args st)
         else environ w !! "NINJA_BIN")
    ∧ env !! "SOURCEKIT_LSP_ENABLE_LONG_TESTS"
      = (if String.eqb (action (st_args st)) "test"
            && negb (skip_long_tests (st_args st))
         then Some "1"
         else environ w !! "SOURCEKIT_LSP_ENABLE_LONG_TESTS").
Proof.
  unfold get_swiftpm_environment_variables, bind, get_args, ret, truthy_str.
  cbn beta iota zeta.
  eexists. split; [reflexivity |].
  repeat split; repeat case_match; simplify_map_eq; try reflexivity;
    simpl in *; congruence.
Qed.

(* ------------------------------------------------------------------------ *)
(** ** More on option assembly *)

Lemma get_swiftpm_options_carries_witness :
  ∃ rest,
    (get_swiftpm_options Sample.linux "/tc/bin/swift"
       (init (Sample.ns_both "build"))).1
    = Ok (strs ["--package-path"; "."; "--build-path"; ".build";
                "--configuration"; "debug"] ++ rest)
    ∧ Str "--sanitize=address" ∈ rest.
Proof.
  pose proof (get_swiftpm_options_carries Sample.linux "/tc/bin/swift"
                (init (Sample.ns_both "build"))) as H.
  destruct (get_swiftpm_options Sample.linux "/tc/bin/swift"
              (init (Sample.ns_both "build"))) as [[opts | c | e] st1] eqn:E;
    [| vm_compute in E; discriminate E | vm_compute in E; discriminate E].
  destruct (H opts st1 eq_refl) as (rest & Ho & Hs).
  exists rest. split; [rewrite Ho; reflexivity |].
  apply (Hs "address" ["address"]); [reflexivity | apply list_elem_of_here].
Defined.

(** Without a cross-compile host (none, or the empty string) option
    assembly does nothing beyond resolving the target, and ends as the
    resolver does: it returns options when the resolver returns, and
    fails in the same way when the resolver fails. *)
Theorem options_without_cross_compile_host w se st :
  truthy_str (cross_compile_host (st_args st)) = false →
  (get_swiftpm_options w se st).2 = (get_build_target w se st).2
  ∧ match (get_build_target w se st).1 with
    | Ok _ => ∃ opts, (get_swiftpm_options w se st).1 = Ok opts
    | Exit code => (get_swiftpm_options w se st).1 = Exit code
    | Raise e => (get_swiftpm_options w se st).1 = Raise e
    end.
Proof.
  intros Hh. destruct (get_swiftpm_options_unfold w se st) as [opts ->].
  destruct (get_build_target w se st) as [[bt | c | e] st1]; simpl;
    [| split; reflexivity | split; reflexivity].
  unfold truthy_str in Hh.
  destruct (cross_compile_host (st_args st)) as [h |]; [rewrite Hh |];
    eauto.
Qed.

Lemma options_without_cross_compile_host_witness :
  ∃ opts,
    (get_swiftpm_options Sample.linux "/tc/bin/swift"
       (init (Sample.ns_cross "build" "" None))).1 = Ok opts.
Proof.
  destruct (options_without_cross_compile_host Sample.linux "/tc/bin/swift"
              (init (Sample.ns_cross "build" "" None)) eq_refl) as [_ H].
  exact H.
Defined.

(* ------------------------------------------------------------------------ *)
(** ** Dispatch *)

(** An action other than build, test and install is fatal: one line on
    stderr, [SystemExit(1)], and no child started. *)
Theorem unknown_action_fatal w se st :
  action (st_args st) ≠ "build" →
  action (st_args st) ≠ "test" →
  action (st_args st) ≠ "install" →
  handle_invocation w se st
  = (Exit 1,
     mkState (st_args st)
       (st_trace st
          ++ [Stderr ("unknown action '" +:+ action (st_args st) +:+ "'")])).
Proof.
  intros Hb Ht Hi. unfold handle_invocation, bind, get_args. cbn beta iota.
  apply String.eqb_neq in Hb, Ht, Hi. rewrite Hb, Ht, Hi.
  reflexivity.
Qed.

Lemma unknown_action_fatal_witness :
  (handle_invocation Sample.linux "/tc/bin/swift"
     (init (Sample.ns "clean"))).1 = Exit 1.
Proof.
  rewrite (unknown_action_fatal Sample.linux "/tc/bin/swift"
             (init (Sample.ns "clean"))); [reflexivity | done ..].
Defined.

(* ------------------------------------------------------------------------ *)
(** ** More on [main] *)

Lemma normpath_truthy (p : string) :
  PyStr.truthy (PosixPath.normpath p) = true.
Proof.
  unfold PosixPath.normpath.
  destruct (negb (PyStr.truthy p)); [reflexivity |].
  cbv zeta.
  destruct (PyStr.truthy (_ +:+ _)) eqn:E; [exact E | reflexivity].
Qed.

(** When [parse_args] returns, the toolchain path is never empty (an
    empty [--toolchain] has become the working directory), so [main]
    always runs [bin/swift] under the toolchain and never a [swift] found
    on the search path. *)
Theorem main_always_runs_toolchain_swift w st st' :
  parse_args w st = (Ok tt, st') →
  toolchain (st_args st') ≠ ""
  ∧ swift_exec_of (st_args st')
    = PosixPath.join (toolchain (st_args st')) ["bin"; "swift"].
Proof.
  intros H.
  assert (PyStr.truthy (toolchain (st_args st')) = true) as Ht.
  { destruct (truthy_list (sanitize (st_args st)) && sanitize_all (st_args st))
      eqn:Hx.
    - exfalso. revert H.
      unfold parse_args, bind, get_args, fatal_error, bind, emit, sys_exit.
      cbn [st_args st_trace]. rewrite Hx. discriminate.
    - rewrite (parse_args_ok w st Hx) in H. injection H as <-.
      apply normpath_truthy. }
  split.
  - intros E. rewrite E in Ht. discriminate Ht.
  - unfold swift_exec_of. rewrite Ht. reflexivity.
Qed.

Lemma main_always_runs_toolchain_swift_witness :
  swift_exec_of
    (st_args (parse_args Sample.linux
                (init (mkNamespace "build" "." "" None ".build" "debug" false
                         None false false false None None false None None))).2)
  = "/work/bin/swift".
Proof.
  destruct (main_always_runs_toolchain_swift Sample.linux
              (init (mkNamespace "build" "." "" None ".build" "debug" false
                       None false false false None None false None None))
              (parse_args Sample.linux
                 (init (mkNamespace "build" "." "" None ".build" "debug" false
                          None false false false None None false None None))).2)
    as [_ H].
  - vm_compute. reflexivity.
  - rewrite H. vm_compute. reflexivity.
Defined.

(** Without [--sanitize-all] a run is the parsing of the arguments
    followed by the action, once, on the parsed record: whatever the
    action does and however it ends is what the run does and how it
    ends. *)
Theorem main_without_sanitize_all w ns :
  sanitize_all ns = false →
  main w (init ns)
  = handle_invocation w (swift_exec_of (parsed w ns)) (mkState (parsed w ns) []).
Proof.
  intros Hall.
  unfold main, bind.
  rewrite (parse_args_ok w (init ns))
    by (cbn [init st_args]; rewrite Hall; apply andb_false_r).
  unfold get_args, ret. cbn [init st_args st_trace].
  fold (parsed w ns). fold (swift_exec_of (parsed w ns)).
  destruct (handle_invocation w (swift_exec_of (parsed w ns))
              (mkState (parsed w ns) [])) as [[[] | c | e] s0] eqn:H0;
    try reflexivity.
  destruct (handle_invocation_fields _ _ _ _ _ H0) as (_ & _ & _ & Hs0).
  cbn [st_args] in Hs0. change (sanitize_all (parsed w ns)) with (sanitize_all ns) in Hs0.
  rewrite Hs0, Hall. reflexivity.
Qed.

Lemma main_without_sanitize_all_witness :
  main Sample.linux (init (Sample.ns "test"))
  = handle_invocation Sample.linux "/tc/bin/swift"
      (mkState (parsed Sample.linux (Sample.ns "test")) []).
Proof.
  apply (main_without_sanitize_all Sample.linux (Sample.ns "test")).
  reflexivity.
Defined.

(** A run ends where the action first fails.  When the action on the
    parsed record fails, the run ends in that failure and in that state:
    no banner is printed and no sanitizer pass starts, with or without
    [--sanitize-all]. *)
Theorem main_stops_at_failed_action w ns r s0 :
  truthy_list (sanitize ns) && sanitize_all ns = false →
  handle_invocation w (swift_exec_of (parsed w ns)) (mkState (parsed w ns) [])
  = (r, s0) →
  r ≠ Ok tt →
  main w (init ns) = (r, s0).
Proof.
  intros Hx H0 Hr.
  unfold main, bind.
  rewrite (parse_args_ok w (init ns)) by exact Hx.
  unfold get_args. cbn [init st_args st_trace].
  fold (parsed w ns). fold (swift_exec_of (parsed w ns)).
  rewrite H0. destruct r as [[] | c | e]; [done | reflexivity | reflexivity].
Qed.

Lemma main_stops_at_failed_action_witness :
  let w := Sample.world "Linux" second_product_fails in
  let run :=
    handle_invocation w "/tc/bin/swift"
      (mkState (parsed w (Sample.ns_all "build")) []) in
  main w (init (Sample.ns_all "build")) = (run.1, run.2).
Proof.
  intros w run.
  apply (main_stops_at_failed_action w (Sample.ns_all "build") run.1 run.2).
  - reflexivity.
  - apply surjective_pairing.
  - vm_compute. discriminate.
Defined.

(** With [--sanitize-all], a sanitizer pass that fails is the end of the
    run: when the address pass fails the run ends in that failure and the
    thread pass is never started, and when the thread pass fails the
    undefined pass is never started. *)
Theorem sanitize_all_stops_at_failed_pass w ns s0 :
  sanitize_all ns = true →
  truthy_list (sanitize ns) = false →
  let p := parsed w ns in
  let se := swift_exec_of p in
  let base := build_path p in
  handle_invocation w se (mkState p []) = (Ok tt, s0) →
  (∀ r s1,
     handle_invocation w se
       (pass_state "address" (PosixPath.join base ["test-asan"]) "asan" s0)
     = (r, s1) →
     r ≠ Ok tt →
     main w (init ns) = (r, s1))
  ∧ (∀ s1 r s2,
       sanitizer_pass w se "address" (PosixPath.join base ["test-asan"])
         "asan" s0 s1 →
       handle_invocation w se
         (pass_state "thread" (PosixPath.join base ["test-tsan"]) "tsan" s1)
       = (r, s2) →
       r ≠ Ok tt →
       main w (init ns) = (r, s2)).
Proof.
  intros Hall Ht p se base H0.
  assert (∀ X : result unit * State,
            main w (init ns)
            = match handle_invocation w se
                      (pass_state "address" (PosixPath.join base ["test-asan"])
                         "asan" s0) with
              | (Ok _, s1) =>
                  match handle_invocation w se
                          (pass_state "thread"
                             (PosixPath.join base ["test-tsan"]) "tsan" s1) with
                  | (Ok _, s2) =>
                      if negb (is_linux w)
                      then handle_invocation w se
                             (pass_state "undefined"
                                (PosixPath.join base ["test-ubsan"]) "ubsan" s2)
                      else (Ok tt, s2)
                  | (Exit c, s2) => (Exit c, s2)
                  | (Raise e, s2) => (Raise e, s2)
                  end
              | (Exit c, s1) => (Exit c, s1)
              | (Raise e, s1) => (Raise e, s1)
              end) as Hmain.
  { intros _. unfold main, bind.
    rewrite (parse_args_ok w (init ns))
      by (cbn [init st_args]; rewrite Ht; reflexivity).
    unfold get_args, print, emit, modify_args, ret.
    cbn [init st_args st_trace].
    fold (parsed w ns). fold p. fold (swift_exec_of p). fold se.
    rewrite H0.
    destruct (handle_invocation_fields _ _ _ _ _ H0) as (_ & Hb0 & _ & Hs0).
    cbn [st_args] in Hb0, Hs0.
    assert (sanitize_all p = true) as Hallp by exact Hall.
    rewrite Hs0, Hallp, Hb0. fold base.
    unfold pass_state. cbn [st_args st_trace].
    change (" sourcekit-lsp with " +:+ "asan" +:+ " ===")
      with " sourcekit-lsp with asan ===".
    change (" sourcekit-lsp with " +:+ "tsan" +:+ " ===")
      with " sourcekit-lsp with tsan ===".
    change (" sourcekit-lsp with " +:+ "ubsan" +:+ " ===")
      with " sourcekit-lsp with ubsan ===".
    clear H0.
    destruct (handle_invocation w se _) as [[[] | c | e] s1]; try reflexivity.
    destruct (handle_invocation w se _) as [[[] | c | e] s2]; try reflexivity.
    destruct (is_linux w); reflexivity. }
  specialize (Hmain (Ok tt, s0)).
  split.
  - intros r s1 H1 Hr. rewrite Hmain, H1.
    destruct r as [[] | c | e]; [done | reflexivity | reflexivity].
  - intros s1 r s2 H1 H2 Hr. unfold sanitizer_pass in H1.
    rewrite Hmain, H1, H2.
    destruct r as [[] | c | e]; [done | reflexivity | reflexivity].
Qed.

Lemma sanitize_all_stops_at_failed_pass_witness :
  let w := Sample.world "Linux" address_pass_fails in
  let ns := Sample.ns_all "build" in
  let s0 :=
    (handle_invocation w "/tc/bin/swift" (mkState (parsed w ns) [])).2 in
  let run :=
    handle_invocation w "/tc/bin/swift"
      (pass_state "address" "/work/.build/test-asan" "asan" s0) in
  main w (init ns) = (run.1, run.2).
Proof.
  intros w ns s0 run.
  destruct (sanitize_all_stops_at_failed_pass w ns s0) as [H _].
  - reflexivity.
  - reflexivity.
  - vm_compute. reflexivity.
  - apply (H run.1 run.2).
    + apply surjective_pairing.
    + vm_compute. discriminate.
Defined.

(* ------------------------------------------------------------------------ *)
(** ** The children of an action *)

Lemma spawned_app (d1 d2 : list event) :
  spawned (d1 ++ d2) = spawned d1 ++ spawned d2.
Proof. apply omap_app. Qed.

Lemma spawned_prints (d : list event) :
  Forall (λ e, is_print e = true) d → spawned d = [].
Proof.
  induction 1 as [| e d He _ IH]; [reflexivity |].
  destruct e; try discriminate He; exact IH.
Qed.

Lemma spawned_not_spawn (d : list event) :
  Forall (λ e, is_spawn e = false) d → spawned d = [].
Proof.
  induction 1 as [| e d He _ IH]; [reflexivity |].
  destruct e; try discriminate He; exact IH.
Qed.

(** Option assembly: the introspection child, then at most lines of
    text. *)
Lemma get_swiftpm_options_prints w se st :
  ∃ tail,
    st_trace (get_swiftpm_options w se st).2
    = st_trace st ++ Spawn (target_info_cmd se) None :: tail
    ∧ Forall (λ e, is_print e = true) tail.
Proof.
  destruct (get_swiftpm_options_unfold w se st) as [opts ->].
  destruct (get_build_target_trace w se st) as (tail & Htr & Htail & _).
  assert (Forall (λ e, is_print e = true) tail) as Hns.
  { destruct Htail as [-> | [m ->]]; repeat constructor. }
  destruct (get_build_target w se st) as [[bt | c | e] st1]; simpl in *;
    [| eauto | eauto].
  repeat case_match; simpl; rewrite ?Htr; eauto;
    rewrite <- app_assoc; simpl; eexists; (split; [reflexivity |]);
    apply Forall_app; split; trivial; repeat constructor.
Qed.

(** [check_call] that returns: at most a line of text, then the child,
    which exited with status 0. *)
Lemma check_call_ok w cmd env v st st1 :
  check_call w cmd env v st = (Ok tt, st1) →
  ∃ pre c,
    Forall (λ e, is_print e = true) pre
    ∧ all_str cmd = Some c
    ∧ st_trace st1 = st_trace st ++ pre ++ [Spawn c env]
    ∧ st_args st1 = st_args st
    ∧ child_ok w (st_trace st1) = true.
Proof.
  unfold check_call, print_cmd, print, subprocess_check_call, popen, bind,
    emit, lift_exn, raise, ret, child_ok.
  destruct v; simpl.
  - destruct (escape_all cmd) as [e | l]; simpl; [discriminate |].
    destruct (all_str cmd) as [c |]; simpl; [| discriminate].
    destruct (run_process w _) as [rc out | rc |] eqn:Hr; simpl;
      [| | discriminate];
      (destruct (Z.eqb_spec rc 0) as [-> | Hne]; simpl; [| discriminate]);
      intros H; injection H as <-; simpl;
      exists [Stdout (PyStr.join " " l)], c;
      rewrite Hr, <- app_assoc; repeat split; repeat constructor.
  - destruct (all_str cmd) as [c |]; simpl; [| discriminate].
    destruct (run_process w _) as [rc out | rc |] eqn:Hr; simpl;
      [| | discriminate];
      (destruct (Z.eqb_spec rc 0) as [-> | Hne]; simpl; [| discriminate]);
      intros H; injection H as <-; simpl;
      exists [], c; rewrite Hr; repeat split; constructor.
Qed.

Lemma spawned_cons_spawn (c : list string) env (d : list event) :
  spawned (Spawn c env :: d) = c :: spawned d.
Proof. reflexivity. Qed.

Lemma well_directed_not_spawn se tc (d : list event) :
  Forall (λ e, is_spawn e = false) d → Forall (well_directed se tc) d.
Proof.
  intros H. eapply Forall_impl; [exact H |].
  intros [] He; try exact I. discriminate He.
Qed.

Lemma prints_not_spawn (d : list event) :
  Forall (λ e, is_print e = true) d → Forall (λ e, is_spawn e = false) d.
Proof.
  intros H. eapply Forall_impl; [exact H |].
  intros [] He; try reflexivity. discriminate He.
Qed.

(** One product, whatever the outcome: every child is well directed. *)
Lemma build_single_product_directed w p se st :
  ∃ d,
    st_trace (build_single_product w p se st).2 = st_trace st ++ d
    ∧ Forall (well_directed se (toolchain (st_args st))) d.
Proof.
  unfold build_single_product, bind.
  destruct (get_swiftpm_options_prints w se st) as (tail & Htr & Hp).
  pose proof (frames_get_swiftpm_options w se st) as Hfr.
  apply erase_fields in Hfr. destruct Hfr as (_ & _ & Htc & _).
  assert (Forall (well_directed se (toolchain (st_args st)))
            (Spawn (target_info_cmd se) None :: tail)) as Hd.
  { constructor; [reflexivity |].
    apply well_directed_not_spawn, prints_not_spawn, Hp. }
  destruct (get_swiftpm_options w se st) as [[opts | c | e] st1];
    cbn [fst snd] in *; eauto.
  destruct (environment_points_at_toolchain w se st1)
    as (env & -> & E1 & E2 & E3).
  unfold get_args. cbn beta iota.
  destruct (check_call_shape w
              (strs [se; "build"; "--product"; p] ++ opts) (Some env)
              (verbose (st_args st1)) st1)
    as (pre & Hpre & [[H1 _] | (c & _ & H1 & _)]).
  - exists ((Spawn (target_info_cmd se) None :: tail) ++ pre).
    split; [rewrite H1, Htr, <- app_assoc; reflexivity |].
    apply Forall_app. split; [exact Hd |].
    apply well_directed_not_spawn, Hpre.
  - exists ((Spawn (target_info_cmd se) None :: tail) ++ pre ++ [Spawn c (Some env)]).
    split; [rewrite H1, Htr, <- !app_assoc; reflexivity |].
    apply Forall_app. split; [exact Hd |].
    apply Forall_app. split; [apply well_directed_not_spawn, Hpre |].
    constructor; [| constructor]. simpl. rewrite <- Htc. auto.
Qed.

(** One product that is built: the introspection child, then the build
    child for that product, which exits with status 0. *)
Lemma build_single_product_ok w p se st st1 :
  build_single_product w p se st = (Ok tt, st1) →
  ∃ d o,
    st_trace st1 = st_trace st ++ d
    ∧ spawned d
      = [target_info_cmd se; se :: "build" :: "--product" :: p :: o].
Proof.
  unfold build_single_product, bind.
  destruct (get_swiftpm_options_prints w se st) as (tail & Htr & Hp).
  destruct (get_swiftpm_options w se st) as [[opts | c | e] st']; cbn [fst snd] in *;
    [| discriminate | discriminate].
  destruct (environment_points_at_toolchain w se st') as (env & -> & _).
  unfold get_args. cbn beta iota. intros H.
  apply check_call_ok in H as (pre & c & Hpre & Hc & H1 & _ & _).
  rewrite all_str_strs_app in Hc.
  destruct (all_str opts) as [o |]; simpl in Hc; [| discriminate].
  injection Hc as <-.
  exists ((Spawn (target_info_cmd se) None :: tail) ++ pre
            ++ [Spawn (se :: "build" :: "--product" :: p :: o) (Some env)]), o.
  split; [rewrite H1, Htr, <- !app_assoc; reflexivity |].
  rewrite !spawned_app, !spawned_cons_spawn.
  rewrite (spawned_prints _ Hp), (spawned_prints _ Hpre). reflexivity.
Qed.

(* ------------------------------------------------------------------------ *)
(** ** Events that all satisfy a property *)

Create HintDb emits.

Section Emits.

Context (P : event → Prop).

Lemma emits_nothing {A} (m : M A) :
  (∀ st, st_trace (m st).2 = st_trace st) → emits P m.
Proof.
  intros H st. exists []. rewrite H, app_nil_r. split; [reflexivity | constructor].
Qed.

Lemma emits_ret {A} (a : A) : emits P (ret a).
Proof. apply emits_nothing. reflexivity. Qed.

Lemma emits_raise {A} (e : exn) : emits P (@raise A e).
Proof. apply emits_nothing. reflexivity. Qed.

Lemma emits_sys_exit {A} (c : Z) : emits P (@sys_exit A c).
Proof. apply emits_nothing. reflexivity. Qed.

Lemma emits_get_args : emits P get_args.
Proof. apply emits_nothing. reflexivity. Qed.

Lemma emits_modify_args f : emits P (modify_args f).
Proof. apply emits_nothing. reflexivity. Qed.

Lemma emits_lift_exn {A} (r : exn + A) : emits P (lift_exn r).
Proof. destruct r; [apply emits_raise | apply emits_ret]. Qed.

Lemma emits_emit (e : event) : P e → emits P (emit e).
Proof. intros He st. exists [e]. split; [reflexivity | repeat constructor; exact He]. Qed.

Lemma emits_bind {A B} (m : M A) (k : A → M B) :
  emits P m → (∀ a, emits P (k a)) → emits P (bind m k).
Proof.
  intros Hm Hk st. unfold bind.
  destruct (Hm st) as (d & Hd & HP).
  destruct (m st) as [[a | c | e] st1]; simpl in *; eauto.
  destruct (Hk a st1) as (d' & Hd' & HP'). exists (d ++ d').
  split; [rewrite Hd', Hd, app_assoc; reflexivity |].
  apply Forall_app. auto.
Qed.

Lemma emits_if {A} (b : bool) (m1 m2 : M A) :
  emits P m1 → emits P m2 → emits P (if b then m1 else m2).
Proof. destruct b; trivial. Qed.

Lemma emits_for_each {A} (l : list A) (body : A → M unit) :
  (∀ x, emits P (body x)) → emits P (for_each l body).
Proof.
  intros Hb. induction l as [| x l IH]; simpl.
  - apply emits_ret.
  - apply emits_bind; auto.
Qed.

Lemma emits_popen w cmd env :
  (∀ c, P (Spawn c env)) → emits P (popen w cmd env).
Proof.
  intros HP. unfold popen.
  destruct (all_str cmd) as [c |]; [| apply emits_raise].
  intros st. exists [Spawn c env]. simpl.
  destruct (run_process w _); (split; [reflexivity |]);
    repeat constructor; apply HP.
Qed.

End Emits.

#[local] Hint Resolve emits_ret emits_raise emits_sys_exit emits_get_args
  emits_modify_args emits_lift_exn : emits.
#[local] Hint Extern 2 (emits _ (bind _ _)) =>
  apply emits_bind; [| intros ?] : emits.
#[local] Hint Extern 2 (emits _ (for_each _ _)) =>
  apply emits_for_each; intros ? : emits.
#[local] Hint Extern 3 (emits _ (if _ then _ else _)) =>
  apply emits_if : emits.
#[local] Hint Extern 3 (emits _ (match ?x with _ => _ end)) =>
  destruct x : emits.
#[local] Hint Extern 2 (emits _ (emit _)) =>
  apply emits_emit; simpl : emits.
#[local] Hint Extern 2 (emits _ (popen _ _ _)) =>
  apply emits_popen; intros ?; simpl : emits.

Ltac emits_tac := repeat (intros; simpl; auto 20 with emits).

(** What remains of [run_tests] once the options and the environment are
    there: every child gets that environment. *)
Lemma run_tests_rest_directed w se tc opts env :
  env !! "SOURCEKIT_TOOLCHAIN_PATH" = Some tc →
  env !! "INDEXSTOREDB_TOOLCHAIN_BIN_PATH" = Some tc →
  env !! "SWIFT_EXEC" = Some (se +:+ "c") →
  emits (well_directed se tc)
    (let* bin_path := swiftpm_bin_path w se opts (Some env) false in
     let tests := PosixPath.join bin_path ["sk-tests"] in
     print ("Cleaning " +:+ tests) ;;;
     emit (Rmtree tests) ;;;
     let cmd :=
       strs [se; "test"; "--parallel"; "--disable-testable-imports";
             "--test-product"; "SourceKitLSPPackageTests"] ++ opts in
     let* args := get_args in
     check_call w cmd (Some env) (verbose args)).
Proof.
  intros E1 E2 E3.
  unfold swiftpm_bin_path, subprocess_check_output, check_call, print_cmd,
    print, subprocess_check_call.
  emits_tac.
Qed.

Lemma for_each_builds_directed w se ps st :
  ∃ d,
    st_trace (for_each ps (λ p, build_single_product w p se) st).2
    = st_trace st ++ d
    ∧ Forall (well_directed se (toolchain (st_args st))) d.
Proof.
  revert st. induction ps as [| p ps IH]; intros st; simpl.
  - exists []. rewrite app_nil_r. split; [reflexivity | constructor].
  - unfold bind.
    destruct (build_single_product_directed w p se st) as (d & Hd & HP).
    pose proof (frames_build_single_product w p se st) as Hfr.
    apply erase_fields in Hfr. destruct Hfr as (_ & _ & Htc & _).
    destruct (build_single_product w p se st) as [[[] | c | e] st1];
      cbn [fst snd] in *; eauto.
    destruct (IH st1) as (d' & Hd' & HP'). rewrite Htc in HP'.
    exists (d ++ d'). split; [rewrite Hd', Hd, app_assoc; reflexivity |].
    apply Forall_app. auto.
Qed.

(** In the build and test actions, whatever their outcome, no child is
    ever started with the bare environment of the process except the
    introspection: every other child gets an environment in which
    [SOURCEKIT_TOOLCHAIN_PATH] and [INDEXSTOREDB_TOOLCHAIN_BIN_PATH] are
    the toolchain of the record and [SWIFT_EXEC] is [swift_exec] followed
    by [c]. *)
Theorem build_and_test_children_directed w se st :
  action (st_args st) = "build" ∨ action (st_args st) = "test" →
  ∃ d,
    st_trace (handle_invocation w se st).2 = st_trace st ++ d
    ∧ Forall (well_directed se (toolchain (st_args st))) d.
Proof.
  intros Ha. unfold handle_invocation, bind, get_args. cbn beta iota.
  destruct Ha as [-> | ->]; cbn [String.eqb Ascii.eqb Bool.eqb].
  - apply for_each_builds_directed.
  - unfold run_tests, bind.
    destruct (get_swiftpm_options_prints w se st) as (tail & Htr & Hp).
    pose proof (frames_get_swiftpm_options w se st) as Hfr.
    apply erase_fields in Hfr. destruct Hfr as (_ & _ & Htc & _).
    assert (Forall (well_directed se (toolchain (st_args st)))
              (Spawn (target_info_cmd se) None :: tail)) as Hd.
    { constructor; [reflexivity |].
      apply well_directed_not_spawn, prints_not_spawn, Hp. }
    destruct (get_swiftpm_options w se st) as [[opts | c | e] st1];
      cbn [fst snd] in *; eauto.
    destruct (environment_points_at_toolchain w se st1)
      as (env & -> & E1 & E2 & E3).
    rewrite Htc in E1, E2.
    destruct (run_tests_rest_directed w se _ opts env E1 E2 E3 st1)
      as (d' & Hd' & HP').
    exists ((Spawn (target_info_cmd se) None :: tail) ++ d').
    split; [| apply Forall_app; auto].
    unfold bind in Hd'. rewrite Hd', Htr, <- app_assoc. reflexivity.
Qed.

Lemma build_and_test_children_directed_witness :
  ∃ d,
    st_trace
      (handle_invocation Sample.linux "/tc/bin/swift"
         (init (Sample.ns "test"))).2
    = [] ++ d
    ∧ Forall (well_directed "/tc/bin/swift" "/tc") d.
Proof.
  apply (build_and_test_children_directed Sample.linux "/tc/bin/swift"
           (init (Sample.ns "test"))).
  right. reflexivity.
Defined.

(** A build action that returns has started exactly six children: for
    each of the three products, in order, the introspection and then
    [swift build --product] for that product. *)
Theorem build_action_children w se st st1 :
  action (st_args st) = "build" →
  handle_invocation w se st = (Ok tt, st1) →
  ∃ d o1 o2 o3,
    st_trace st1 = st_trace st ++ d
    ∧ spawned d
      = [target_info_cmd se;
         se :: "build" :: "--product" :: "SourceKitLSPPackageTests" :: o1;
         target_info_cmd se;
         se :: "build" :: "--product" :: "_SourceKitLSP" :: o2;
         target_info_cmd se;
         se :: "build" :: "--product" :: "sourcekit-lsp" :: o3].
Proof.
  intros Ha. unfold handle_invocation, bind, get_args. cbn beta iota.
  rewrite Ha. cbn [String.eqb Ascii.eqb Bool.eqb].
  unfold products. cbn [for_each]. unfold bind, ret.
  destruct (build_single_product w "SourceKitLSPPackageTests" se st)
    as [[[] | c | e] s1] eqn:H1; [| discriminate | discriminate].
  destruct (build_single_product w "_SourceKitLSP" se s1)
    as [[[] | c | e] s2] eqn:H2; [| discriminate | discriminate].
  destruct (build_single_product w "sourcekit-lsp" se s2)
    as [[[] | c | e] s3] eqn:H3; [| discriminate | discriminate].
  intros H. injection H as <-.
  apply build_single_product_ok in H1 as (d1 & o1 & Hd1 & Hs1).
  apply build_single_product_ok in H2 as (d2 & o2 & Hd2 & Hs2).
  apply build_single_product_ok in H3 as (d3 & o3 & Hd3 & Hs3).
  exists (d1 ++ d2 ++ d3), o1, o2, o3. split.
  - rewrite Hd3, Hd2, Hd1, <- !app_assoc. reflexivity.
  - rewrite !spawned_app, Hs1, Hs2, Hs3. reflexivity.
Qed.

Lemma build_action_children_witness :
  ∃ d,
    st_trace
      (handle_invocation Sample.linux "/tc/bin/swift"
         (init (Sample.ns "build"))).2
    = [] ++ d
    ∧ length (spawned d) = 6%nat.
Proof.
  destruct (build_action_children Sample.linux "/tc/bin/swift"
              (init (Sample.ns "build"))
              (handle_invocation Sample.linux "/tc/bin/swift"
                 (init (Sample.ns "build"))).2)
    as (d & o1 & o2 & o3 & Hd & Hs).
  - reflexivity.
  - vm_compute. reflexivity.
  - exists d. split; [exact Hd |]. rewrite Hs. reflexivity.
Defined.

(* ------------------------------------------------------------------------ *)
(** ** The test action *)






